(** * budget-importer: receipt matching, categorisation and sheet dedup

    A shallow embedding of the pipeline of [budget/main.py]:
    [SimpleFinClient.attach_receipts], [SimpleFinClient.categorize_transactions]
    ([budget/clients/simplefin.py]), [convert_to_row] and
    [GoogleClient.insert_records_to_google_sheet] ([budget/clients/google.py])
    and [Args.__post_init__] ([budget/main.py]), with the models of
    [budget/models].

    Python objects that the pipeline mutates in place (the transactions) live
    in a heap indexed by object identity; lists of transactions are lists of
    references into that heap. *)

From Stdlib Require Import ZArith QArith Qpower Floats.SpecFloat.
From stdpp Require Import gmap strings list fin_maps pretty sorting.

Local Open Scope Z_scope.

(** ** Python values used by the pipeline *)

(** Truthiness of a [str | None]: [None] and the empty string are falsy. *)
Definition truthy (o : option string) : bool :=
  match o with
  | Some s => negb (String.eqb s "")
  | None => false
  end.

(** [x or ""] for [x : str | None]. *)
Definition or_empty (o : option string) : string :=
  if truthy o then default "" o else "".

(** The line feed of ["\n"]. *)
Definition newline : string := String (Ascii.ascii_of_nat 10) "".

(** *** decimal.Decimal

    A finite decimal is a coefficient and an exponent and stands for
    [coefficient * 10 ^ exponent]; [Decimal("-12.34")] is
    [{| coefficient := -1234; exponent := -2 |}].  Comparison and hashing are
    by numeric value, so [Decimal("1.0")] and [Decimal("1.00")] are the same
    dictionary key.  NaN, the infinities and the sign of a zero are not
    represented. *)
Record Decimal := mkDecimal { coefficient : Z; exponent : Z }.

Definition Decimal_value (d : Decimal) : Q :=
  (inject_Z (coefficient d) * (10 # 1) ^ exponent d)%Q.

(** [d1 == d2] *)
Definition Decimal_eqb (d1 d2 : Decimal) : bool :=
  Qeq_bool (Decimal_value d1) (Decimal_value d2).

(** [bool(d)]: a decimal is falsy exactly when it is zero. *)
Definition Decimal_bool (d : Decimal) : bool := negb (coefficient d =? 0).

(** [float(d)]: the IEEE 754 binary64 number nearest to the decimal (ties to
    even), computed on the specification floats of the Standard Library.  An
    integer is rounded directly; a decimal with a negative exponent is the
    correctly rounded quotient of its coefficient by the power of ten. *)
Definition prec : Z := 53.
Definition emax : Z := 1024.

Definition float_of_Decimal (d : Decimal) : spec_float :=
  if 0 <=? exponent d then
    binary_normalize prec emax (coefficient d * 10 ^ exponent d) 0 false
  else
    let den := S754_finite false (Z.to_pos (10 ^ (- exponent d))) 0 in
    match coefficient d with
    | Z0 => S754_zero false
    | Zpos p => SFdiv prec emax (S754_finite false p 0) den
    | Zneg p => SFdiv prec emax (S754_finite true p 0) den
    end.

(** *** datetime.date and datetime.datetime

    A [date] is its day number counted from 1970-01-01 (proleptic Gregorian
    calendar); the difference of two dates is a [timedelta] of whole days,
    here the difference of the day numbers.  The timestamps of the pipeline
    are built by [datetime.fromtimestamp(n, tz=UTC)] from integer epoch
    seconds and are represented by that integer. *)
Definition date := Z.
Definition datetime := Z.

(** [dt.date()] for a UTC timestamp. *)
Definition datetime_date (dt : datetime) : date := dt / 86400.

(** Day number of a civil date and back (the era-based algorithm on the
    Gregorian 400-year cycle, years starting in March). *)
Definition days_from_civil (y m d : Z) : date :=
  let y' := if m <=? 2 then y - 1 else y in
  let era := y' / 400 in
  let yoe := y' - era * 400 in
  let mp := if 2 <? m then m - 3 else m + 9 in
  let doy := (153 * mp + 2) / 5 + d - 1 in
  let doe := yoe * 365 + yoe / 4 - yoe / 100 + doy in
  era * 146097 + doe - 719468.

Definition doy_of_doe (doe : Z) : Z * Z :=
  let yoe := (doe - doe / 1460 + doe / 36524 - doe / 146096) / 365 in
  (yoe, doe - (365 * yoe + yoe / 4 - yoe / 100)).

Definition civil_from_days (z : date) : Z * Z * Z :=
  let z' := z + 719468 in
  let era := z' / 146097 in
  let doe := z' - era * 146097 in
  let '(yoe, doy) := doy_of_doe doe in
  let mp := (5 * doy + 2) / 153 in
  let d := doy - (153 * mp + 2) / 5 + 1 in
  let m := if mp <? 10 then mp + 3 else mp - 9 in
  let y := yoe + era * 400 in
  (if m <=? 2 then y + 1 else y, m, d).

(** [dt.strftime("%-m/%-d/%Y")]: month and day as plain decimal numbers (the
    [-] flag removes the padding), then the year. *)
Definition strftime_mdY (dt : datetime) : string :=
  let '(y, m, d) := civil_from_days (datetime_date dt) in
  pretty m +:+ "/" +:+ pretty d +:+ "/" +:+ pretty y.

(** *** sorted(iterable, key=..., reverse=...)

    Python's sort is stable, also with [reverse=True]: elements with equal
    keys keep their order.  Insertion from the right realises exactly that
    order. *)
Fixpoint insort {A} (le : A → A → bool) (x : A) (l : list A) : list A :=
  match l with
  | [] => [x]
  | y :: l' => if le x y then x :: y :: l' else y :: insort le x l'
  end.

Definition key_le {A} (key : A → Z) (reverse : bool) (x y : A) : bool :=
  if reverse then key y <=? key x else key x <=? key y.

Definition sorted {A} (key : A → Z) (reverse : bool) (l : list A) : list A :=
  foldr (insort (key_le key reverse)) [] l.

(** The order a sort with this key and direction establishes. *)
Definition key_rel {A} (key : A → Z) (reverse : bool) (x y : A) : Prop :=
  if reverse then key y ≤ key x else key x ≤ key y.

(** ** budget/models *)

(** [budget.models.paperless.Document] *)
Module Document.
Record t := mk {
  id : Z;
  date : date;
  total : option Decimal;
  title : string;
  category : option string;
}.

(** [__str__] *)
Definition str (d : t) : string :=
  "https://paperless.markis.network/documents/" +:+ pretty (id d) +:+ "/".
End Document.

(** [budget.models.google.Category] *)
Module Category.
Record t := mk {
  category : option string;
  name : option string;
}.

(** [from_row]: [checked_row = [*row[1:], None, None]]. *)
Definition from_row (row : list string) : t :=
  let checked_row := (Some <$> drop 1 row) ++ [None; None] in
  mk (mjoin (checked_row !! 0%nat)) (mjoin (checked_row !! 1%nat)).
End Category.

(** [budget.models.simplefin.SimpleFinTransaction] *)
Module SimpleFinTransaction.
Record t := mk {
  id : string;
  amount : Decimal;
  description : string;
  memo : string;
  payee : string;
  posted : datetime;
  transacted_at : datetime;
  category : option string;
  receipt : option Document.t;
}.

(** Attribute assignments [transaction.category = c],
    [transaction.receipt = r] and [transaction.payee = p]. *)
Definition set_category (c : option string) (x : t) : t :=
  mk (id x) (amount x) (description x) (memo x) (payee x) (posted x)
     (transacted_at x) c (receipt x).
Definition set_receipt (r : option Document.t) (x : t) : t :=
  mk (id x) (amount x) (description x) (memo x) (payee x) (posted x)
     (transacted_at x) (category x) r.
Definition set_payee (p : string) (x : t) : t :=
  mk (id x) (amount x) (description x) (memo x) p (posted x)
     (transacted_at x) (category x) (receipt x).
End SimpleFinTransaction.

(** Object identities of transactions and the heap that holds them. *)
Abbreviation ref := nat.
Abbreviation heap := (gmap nat SimpleFinTransaction.t).

(** [for x in xs: f(x)] where [f] mutates the object [x] in place: the
    objects are updated in list order, an object listed twice is updated
    twice. *)
Definition alter_all {T : Type} (f : T → T) (σ : gmap nat T)
    (refs : list nat) : gmap nat T :=
  foldl (λ σ r, alter f r σ) σ refs.

(** [budget.models.simplefin.SimpleFinAccount]; [holdings] and [org] play no
    part in the pipeline and are left out.  [transactions] holds references:
    the pipeline mutates the transaction objects the account points to. *)
Module SimpleFinAccount.
Record t := mk {
  available_balance : string;
  balance : string;
  balance_date : Z;
  currency : string;
  id : string;
  name : string;
  transactions : list ref;
}.
End SimpleFinAccount.

(** ** budget/clients/simplefin.py *)

(** The [defaultdict(list)] keyed by [Decimal]: entries in insertion order,
    keys pairwise different as decimals. *)
Definition grouped := list (Decimal * list Document.t).

(** [grouped_receipts.get(amount, [])] *)
Fixpoint grouped_get (g : grouped) (amount : Decimal) : list Document.t :=
  match g with
  | [] => []
  | (k, documents) :: g' =>
      if Decimal_eqb k amount then documents else grouped_get g' amount
  end.

(** [grouped_receipts[total].append(receipt)] *)
Fixpoint grouped_append (g : grouped) (total : Decimal) (receipt : Document.t)
    : grouped :=
  match g with
  | [] => [(total, [receipt])]
  | (k, documents) :: g' =>
      if Decimal_eqb k total then (k, documents ++ [receipt]) :: g'
      else (k, documents) :: grouped_append g' total receipt
  end.

(** Body of the first loop of [attach_receipts]: [if receipt.total: ...]. *)
Definition group_receipt (g : grouped) (receipt : Document.t) : grouped :=
  match Document.total receipt with
  | Some total =>
      if Decimal_bool total then grouped_append g total receipt else g
  | None => g
  end.

Definition group_receipts (receipts : list Document.t) : grouped :=
  foldl group_receipt [] receipts.

(** The sort key of a candidate: [transaction.transacted_at.date() - d.date],
    a signed number of days. *)
Definition receipt_key (transaction : SimpleFinTransaction.t)
    (d : Document.t) : Z :=
  datetime_date (SimpleFinTransaction.transacted_at transaction)
  - Document.date d.

(** [next(iter(sorted(documents, key=...)), None)] *)
Definition pick_document (transaction : SimpleFinTransaction.t)
    (documents : list Document.t) : option Document.t :=
  head (sorted (receipt_key transaction) false documents).

(** Body of the inner loop of [attach_receipts] on one transaction object.
    A [Document] has neither [__bool__] nor [__len__], so [if document] only
    tests for [None]. *)
Definition attach_receipt (g : grouped)
    (transaction : SimpleFinTransaction.t) : SimpleFinTransaction.t :=
  let documents := grouped_get g (SimpleFinTransaction.amount transaction) in
  let document := pick_document transaction documents in
  SimpleFinTransaction.set_receipt document
    (SimpleFinTransaction.set_category
       (document ≫= Document.category) transaction).

(** [attach_receipts]: the state of the two nested loops is the heap and the
    list [transactions] built so far; the result is the sorted list together
    with the heap after all the assignments. *)
Definition attach_account (g : grouped) (st : heap * list ref)
    (account : SimpleFinAccount.t) : heap * list ref :=
  foldl (λ '(σ, transactions) r,
           (alter (attach_receipt g) r σ, transactions ++ [r]))
        st (SimpleFinAccount.transactions account).

Definition transacted_at_of (σ : heap) (r : ref) : datetime :=
  from_option SimpleFinTransaction.transacted_at 0 (σ !! r).

Definition attach_receipts (accounts : list SimpleFinAccount.t)
    (receipts : list Document.t) (σ : heap) : list ref * heap :=
  let grouped_receipts := group_receipts receipts in
  let '(σ', transactions) :=
    foldl (attach_account grouped_receipts) (σ, []) accounts in
  (sorted (transacted_at_of σ') true transactions, σ').

(** Body of the loop of [categorize_transactions]. *)
Definition categorize_transaction (mapping : gmap string Category.t)
    (transaction : SimpleFinTransaction.t) : SimpleFinTransaction.t :=
  let rule := default (Category.mk None None)
                      (mapping !! SimpleFinTransaction.payee transaction) in
  let category := Category.category rule in
  let name := Category.name rule in
  let transaction :=
    if negb (truthy (SimpleFinTransaction.category transaction))
       && truthy category
    then SimpleFinTransaction.set_category category transaction
    else transaction in
  if truthy name
  then SimpleFinTransaction.set_payee (default "" name) transaction
  else transaction.

(** [categorize_transactions]: in-place mutation of every listed object. *)
Definition categorize_transactions (transactions : list ref)
    (mapping : gmap string Category.t) (σ : heap) : heap :=
  alter_all (categorize_transaction mapping) σ transactions.

(** ** budget/clients/google.py *)

(** A cell of a [GoogleSheetRow = list[str | float | int]]. *)
Inductive cell :=
  | CStr (s : string)
  | CFloat (f : spec_float)
  | CInt (n : Z).

(** Exceptions the modelled code raises, and the outcome of a call. *)
Inductive exn :=
  | AssertionError
  | IndexError
  | ArgsError (msg : string)
  | OtherError (msg : string).

Inductive outcome (A : Type) :=
  | Ok (a : A)
  | Raise (e : exn).
Arguments Ok {A} a.
Arguments Raise {A} e.

Definition is_list_of_strings (data : list (list string)) : bool :=
  match data with
  | [] => false
  | _ :: _ => true
  end.

Definition convert_to_row (tran : SimpleFinTransaction.t) : list cell :=
  [ CStr (SimpleFinTransaction.id tran);
    CStr (SimpleFinTransaction.payee tran);
    CFloat (float_of_Decimal (SimpleFinTransaction.amount tran));
    CStr (strftime_mdY (SimpleFinTransaction.transacted_at tran));
    CStr (or_empty (SimpleFinTransaction.category tran));
    CStr (match SimpleFinTransaction.receipt tran with
          | Some d => Document.str d
          | None => ""
          end) ].

(** [{row[0] for row in values}]: an empty row raises [IndexError]. *)
Fixpoint first_column (values : list (list string)) : outcome (gset string) :=
  match values with
  | [] => Ok ∅
  | [] :: _ => Raise IndexError
  | (x :: _) :: values' =>
      match first_column values' with
      | Ok ids => Ok ({[x]} ∪ ids)
      | Raise e => Raise e
      end
  end.

(** [[convert_to_row(t) for t in transactions if t.id not in current_ids]] *)
Definition new_records (current_ids : gset string)
    (transactions : list SimpleFinTransaction.t) : list (list cell) :=
  convert_to_row <$>
    filter (λ t, SimpleFinTransaction.id t ∉ current_ids) transactions.

(** [insert_records_to_google_sheet], from the [values] read off the
    worksheet to the [records] handed to [ws.append_rows]; the transactions
    are only read, so they are passed as the objects the references denote. *)
Definition insert_records_to_google_sheet (values : list (list string))
    (transactions : list SimpleFinTransaction.t) : outcome (list (list cell)) :=
  if is_list_of_strings values then
    match first_column values with
    | Ok current_ids => Ok (new_records current_ids transactions)
    | Raise e => Raise e
    end
  else Raise AssertionError.

(** The id column of a list of rows, as the sheet reads it back. *)
Definition row_id (row : list cell) : option string :=
  match row with
  | CStr s :: _ => Some s
  | _ => None
  end.

Definition row_ids (rows : list (list cell)) : list string :=
  omap row_id rows.

(** ** budget/main.py and budget/cli.py *)

(** [Args]: every field comes from the command line or the environment and
    is [None] when neither gives it. *)
Module Args.
Record t := mk {
  simplefin_username : option string;
  simplefin_password : option string;
  simplefin_access_url : option string;
  paperless_url : option string;
  paperless_token : option string;
  google_credentials : option string;
  sheets_spreadsheet_id : option string;
  sheets_range_name : option string;
  mapping_range_name : option string;
}.

(** [any(...)] over the fields of a credential group. *)
Definition any (fields : list (option string)) : bool :=
  existsb truthy fields.

(** The list [errors] built by [__post_init__]. *)
Definition errors (a : t) : list string :=
  (if negb (any [simplefin_username a; simplefin_password a;
                 simplefin_access_url a])
   then ["SimpleFin credentials are required"] else [])
  ++ (if negb (any [paperless_url a; paperless_token a])
      then ["Paperless credentials are required"] else [])
  ++ (if negb (any [google_credentials a; sheets_spreadsheet_id a])
      then ["Google credentials are required"] else []).

(** ["\n".join(errors)] *)
Fixpoint join_lines (l : list string) : string :=
  match l with
  | [] => ""
  | [x] => x
  | x :: l' => x +:+ newline +:+ join_lines l'
  end.

Definition post_init (a : t) : outcome unit :=
  match errors a with
  | [] => Ok tt
  | errs =>
      Raise (ArgsError ("Missing CLI Args " +:+ newline +:+ join_lines errs))
  end.

(** The dataclass constructor: store the fields, then run [__post_init__]. *)
Definition init (a : t) : outcome t :=
  match post_init a with
  | Ok _ => Ok a
  | Raise e => Raise e
  end.
End Args.

(** What a run does that can be observed from outside: log records and
    requests to the three remote systems. *)
Inductive remote := Paperless | SimpleFin | GoogleSheets.

Inductive event :=
  | LogInfo (msg : string)
  | LogError (msg : string)
  | LogException (msg : string)
  | Request (to : remote).

Definition is_request (e : event) : bool :=
  match e with
  | Request _ => true
  | _ => false
  end.

Section Run.
(** [main(args)]: the events of the pipeline on the validated arguments and
    how it ends.  All the requests of a run are made in here; what they
    answer is outside the program. *)
Variable main : Args.t → list event * outcome unit.

(** [run()] of [budget/cli.py], on the argument values [get_args] has
    collected. *)
Definition run (fields : Args.t) : list event :=
  LogInfo "Starting..." ::
  match Args.init fields with
  | Raise (ArgsError msg) => [LogError msg]
  | Raise _ => [LogException "An error occurred"]
  | Ok args =>
      let '(events, result) := main args in
      events ++
      match result with
      | Ok _ => [LogInfo "Done"]
      | Raise (ArgsError msg) => [LogError msg]
      | Raise _ => [LogException "An error occurred"]
      end
  end.
End Run.

(** The objects a list of references denotes. *)
Definition deref (σ : heap) (refs : list ref) : list SimpleFinTransaction.t :=
  omap (λ r, σ !! r) refs.

(** The body of [main] on what the three fetches returned: the lookup
    [mapping], the [documents], the [accounts] with their transaction
    objects in [σ], and the [values] of the transactions sheet.  The result
    is what the run appends to the sheet. *)
Definition pipeline (mapping : gmap string Category.t)
    (documents : list Document.t) (accounts : list SimpleFinAccount.t)
    (σ : heap) (values : list (list string)) : outcome (list (list cell)) :=
  let '(transactions, σ) := attach_receipts accounts documents σ in
  let σ := categorize_transactions transactions mapping σ in
  insert_records_to_google_sheet values (deref σ transactions).

(** ** Notions the properties are stated with *)

(** [f] holds of the [n] integers from [start] on. *)
Fixpoint all_from (f : Z → bool) (start : Z) (n : nat) : bool :=
  match n with
  | O => true
  | S n' => f start && all_from f (start + 1) n'
  end.

(** The receipts that belong to the bucket of [amount]: the total is set, is
    not zero and equals the amount. *)
Definition candidate (amount : Decimal) (receipt : Document.t) : bool :=
  match Document.total receipt with
  | Some total => Decimal_bool total && Decimal_eqb total amount
  | None => false
  end.

(** The selection as the specification words it: the candidate of least
    absolute day distance to the transaction date, the first supplied among
    equals. *)
Definition closest_document (transaction : SimpleFinTransaction.t)
    (documents : list Document.t) : option Document.t :=
  head (sorted (λ d, Z.abs (receipt_key transaction d)) false documents).

(** All the transaction references of a list of accounts, in loop order. *)
Definition account_refs (accounts : list SimpleFinAccount.t) : list ref :=
  concat (SimpleFinAccount.transactions <$> accounts).

(** A credential group is absent when none of its fields is given. *)
Definition group_absent (fields : list (option string)) : Prop :=
  Forall (λ f, truthy f = false) fields.

Definition some_group_absent (a : Args.t) : Prop :=
  group_absent [Args.simplefin_username a; Args.simplefin_password a;
                Args.simplefin_access_url a]
  ∨ group_absent [Args.paperless_url a; Args.paperless_token a]
  ∨ group_absent [Args.google_credentials a; Args.sheets_spreadsheet_id a].

(** A numeral with a leading zero. *)
Definition leading_zero (s : string) : bool :=
  match s with
  | String c _ => Ascii.eqb c (Ascii.ascii_of_nat 48)
  | EmptyString => false
  end.

(** ** Sample data *)

(** Noon UTC of a civil date, in epoch seconds. *)
Definition noon (y m d : Z) : datetime := days_from_civil y m d * 86400 + 43200.

Definition receipt_0309 : Document.t :=
  Document.mk 1 (days_from_civil 2024 3 9) (Some (mkDecimal (-4250) (-2)))
              "Receipt of 9 March" (Some "Dining").
Definition receipt_0315 : Document.t :=
  Document.mk 2 (days_from_civil 2024 3 15) (Some (mkDecimal (-4250) (-2)))
              "Receipt of 15 March" (Some "Travel").
Definition receipt_zero : Document.t :=
  Document.mk 3 (days_from_civil 2024 3 10) (Some (mkDecimal 0 (-2)))
              "Voided receipt" None.

Definition transaction_0310 : SimpleFinTransaction.t :=
  SimpleFinTransaction.mk "t1" (mkDecimal (-4250) (-2)) "Card purchase" ""
    "ACME CORP" (noon 2024 3 11) (noon 2024 3 10) None None.
(** [transaction_0310] once the receipt of 9 March is attached to it. *)
Definition transaction_0310_attached : SimpleFinTransaction.t :=
  SimpleFinTransaction.mk "t1" (mkDecimal (-4250) (-2)) "Card purchase" ""
    "ACME CORP" (noon 2024 3 11) (noon 2024 3 10) (Some "Dining")
    (Some receipt_0309).
Definition transaction_zero : SimpleFinTransaction.t :=
  SimpleFinTransaction.mk "t2" (mkDecimal 0 0) "Authorisation hold" ""
    "ACME CORP" (noon 2024 3 10) (noon 2024 3 10) None None.
Definition transaction_t3 : SimpleFinTransaction.t :=
  SimpleFinTransaction.mk "t3" (mkDecimal (-1234) (-2)) "Card purchase" ""
    "CORNER SHOP" (noon 2024 3 2) (noon 2024 3 1) (Some "Household") None.

Definition sample_account (refs : list ref) : SimpleFinAccount.t :=
  SimpleFinAccount.mk "100.00" "100.00" 1710072000 "USD" "acc-1" "Checking"
                      refs.

Definition sample_heap : heap :=
  {[ 0%nat := transaction_0310; 1%nat := transaction_zero;
     2%nat := transaction_t3 ]}.

Definition acme_mapping : gmap string Category.t :=
  {[ "ACME CORP" := Category.mk (Some "Groceries") (Some "Acme") ]}.

Definition sample_args : Args.t :=
  Args.mk (Some "user") (Some "secret")
          (Some "https://bridge.example/simplefin")
          (Some "http://paperless.example") (Some "token")
          (Some "credentials.json") (Some "sheet-id")
          (Some "transactions") (Some "lookup").

Definition sample_args_no_paperless : Args.t :=
  Args.mk (Some "user") (Some "secret")
          (Some "https://bridge.example/simplefin")
          None (Some "")
          (Some "credentials.json") (Some "sheet-id")
          (Some "transactions") (Some "lookup").
(** ** More sample data *)

(** A second receipt of 15 March with the same total, supplied later. *)
Definition receipt_0315_later : Document.t :=
  Document.mk 4 (days_from_civil 2024 3 15) (Some (mkDecimal (-425) (-1)))
              "Second receipt of 15 March" None.

(** A second purchase of the same amount on the same day as
    [transaction_0310]. *)
Definition transaction_0310_again : SimpleFinTransaction.t :=
  SimpleFinTransaction.mk "t4" (mkDecimal (-425) (-1)) "Card purchase" ""
    "ACME CORP" (noon 2024 3 12) (noon 2024 3 10 + 3600) (Some "Stale") None.

Definition sample_heap4 : heap :=
  {[ 0%nat := transaction_0310; 1%nat := transaction_zero;
     2%nat := transaction_t3; 3%nat := transaction_0310_again ]}.

(** ** budget/clients/google.py: get_category_mapping *)

(** [{row[0]: Category.from_row(row) for row in values}]: the rows are
    entered in order, a later row replaces an earlier one with the same
    first cell; a row without cells raises [IndexError]. *)
Fixpoint mapping_of_rows (values : list (list string))
    (mapping : gmap string Category.t) : outcome (gmap string Category.t) :=
  match values with
  | [] => Ok mapping
  | [] :: _ => Raise IndexError
  | (x :: cells) :: values' =>
      mapping_of_rows values' (<[x := Category.from_row (x :: cells)]> mapping)
  end.

(** [get_category_mapping], from the [values] read off the lookup sheet to
    the pair of the key set [categories] and the [mapping]. *)
Definition get_category_mapping (values : list (list string))
    : outcome (gset string * gmap string Category.t) :=
  if is_list_of_strings values then
    match first_column values with
    | Ok categories =>
        match mapping_of_rows values ∅ with
        | Ok mapping => Ok (categories, mapping)
        | Raise e => Raise e
        end
    | Raise e => Raise e
    end
  else Raise AssertionError.

(** The id column of the sheet as a list, top to bottom. *)
Definition id_column (values : list (list string)) : list string :=
  omap head values.

(** The ids of the objects a list of references denotes. *)
Definition ids_of (σ : heap) (refs : list ref) : list string :=
  SimpleFinTransaction.id <$> deref σ refs.

(** ** budget/main.py: main *)

(** The two worksheets of the spreadsheet. *)
Inductive sheet := Lookup | Transactions.

(** The calls of a run to the remote systems, in the order made.  Reading a
    worksheet stands for [open_by_key], [worksheet] and [get_all_values];
    fetching the documents for all the page requests of
    [fetch_documents]. *)
Inductive effect :=
  | ReadSheet (s : sheet)
  | FetchDocuments
  | FetchAccounts
  | AppendRows (records : list (list cell))
  | SortSheet.

(** What the world outside answers: whether the three clients can be set up
    from the arguments, and what every call returns or raises.  The fetched
    accounts come with the heap of their transaction objects. *)
Record world := mk_world {
  client_setup : outcome unit;
  lookup_sheet : outcome (list (list string));
  documents_fetched : outcome (list Document.t);
  accounts_fetched : outcome (list SimpleFinAccount.t * heap);
  transactions_sheet : outcome (list (list string));
  append_rows : list (list cell) → outcome unit;
  sort_sheet : outcome unit;
}.

(** Computations that make calls and may raise: the calls made so far and
    the value or the exception. *)
Definition M (A : Type) : Type := list effect * outcome A.

Definition M_ret {A} (a : A) : M A := ([], Ok a).

Definition M_bind {A B} (m : M A) (k : A → M B) : M B :=
  match m with
  | (calls, Ok a) => let '(calls', r) := k a in (calls ++ calls', r)
  | (calls, Raise e) => (calls, Raise e)
  end.

(** A local step and a remote call. *)
Definition lift {A} (r : outcome A) : M A := ([], r).
Definition call {A} (e : effect) (answer : outcome A) : M A := ([e], answer).

(** [main(args)] against a world: set up the clients, read the lookup
    sheet, fetch documents and accounts, match and categorise, then read
    the transactions sheet, append the new rows and sort. *)
Definition main (w : world) : M unit :=
  M_bind (lift (client_setup w)) (λ _,
  M_bind (call (ReadSheet Lookup) (lookup_sheet w)) (λ lookup,
  M_bind (lift (get_category_mapping lookup)) (λ '(_, mapping),
  M_bind (call FetchDocuments (documents_fetched w)) (λ documents,
  M_bind (call FetchAccounts (accounts_fetched w)) (λ '(accounts, σ),
  let '(transactions, σ) := attach_receipts accounts documents σ in
  let σ := categorize_transactions transactions mapping σ in
  M_bind (call (ReadSheet Transactions) (transactions_sheet w)) (λ values,
  M_bind (lift (insert_records_to_google_sheet values (deref σ transactions)))
         (λ records,
  M_bind (call (AppendRows records) (append_rows w records)) (λ _,
  call SortSheet (sort_sheet w))))))))).

(** The calls of a run, in full. *)
Definition all_calls (records : list (list cell)) : list effect :=
  [ReadSheet Lookup; FetchDocuments; FetchAccounts; ReadSheet Transactions;
   AppendRows records; SortSheet].

Definition is_append (e : effect) : bool :=
  match e with
  | AppendRows _ => true
  | _ => false
  end.

(** A world in which everything answers. *)
Definition sample_world : world :=
  mk_world (Ok tt)
    (Ok [["ACME CORP"; "Groceries"; "Acme"]])
    (Ok [receipt_0309])
    (Ok ([sample_account [0%nat; 2%nat]], sample_heap))
    (Ok [["id"; "payee"; "amount"]; ["t1"; "ACME CORP"; "-42.5"]])
    (λ _, Ok tt) (Ok tt).

(** ** budget/models/simplefin.py: from_dict *)

(** The raw records, typed as their [TypedDict] declares them. *)
Module SimpleFinTransactionDict.
Record t := mk {
  id : string;
  amount : string;
  description : string;
  memo : string;
  payee : string;
  posted : Z;
  transacted_at : Z;
}.
End SimpleFinTransactionDict.

(** [holdings] and [org] are left out as in [SimpleFinAccount]. *)
Module SimpleFinAccountDict.
Record t := mk {
  available_balance : string;
  balance : string;
  balance_date : Z;
  currency : string;
  id : string;
  name : string;
  transactions : list SimpleFinTransactionDict.t;
}.
End SimpleFinAccountDict.

Module SimpleFinResponseDict.
Record t := mk {
  accounts : list SimpleFinAccountDict.t;
  errors : option (list string);
  x_api_message : option (list string);
}.
End SimpleFinResponseDict.

(** [datetime.fromtimestamp(n, tz=UTC)]: defined for the seconds of the
    years 1 to 9999; outside it raises ([ValueError], or [OverflowError] or
    [OSError] beyond the platform's [time_t]). *)
Definition datetime_min : Z := -62135596800.
Definition datetime_max : Z := 253402300799.

Definition datetime_fromtimestamp (n : Z) : outcome datetime :=
  if (datetime_min <=? n) && (n <=? datetime_max) then Ok n
  else Raise (OtherError "timestamp out of range").

(** A new object: a reference no object of the heap has. *)
Definition alloc (t : SimpleFinTransaction.t) (σ : heap) : ref * heap :=
  let r := fresh (dom σ) in (r, <[r := t]> σ).

(** What [Decimal(s)] gives for a string: a finite number; one of the
    special values - an infinity or a NaN, quiet or signalling - which
    [Decimal] as modelled here does not have; or no value, where the
    constructor raises [decimal.InvalidOperation]. *)
Inductive Decimal_read :=
  | Dec_finite (d : Decimal)
  | Dec_special (signalling : bool)
  | Dec_invalid.

(** A constructor that returns gives [Ok (Some x)], or [Ok None] where the
    object it returns holds a special value of [Decimal] and so is none the
    model has; of a list one such object makes [Ok None], once the rest of
    the list was converted without an exception. *)

Section FromDict.
Variable Decimal_of_string : string → Decimal_read.

(** [SimpleFinTransaction.from_dict]: both time stamps are converted before
    the amount. *)
Definition SimpleFinTransaction_from_dict
    (transaction : SimpleFinTransactionDict.t)
    : outcome (option SimpleFinTransaction.t) :=
  match datetime_fromtimestamp
          (SimpleFinTransactionDict.posted transaction) with
  | Raise e => Raise e
  | Ok posted =>
      match datetime_fromtimestamp
              (SimpleFinTransactionDict.transacted_at transaction) with
      | Raise e => Raise e
      | Ok transacted_at =>
          match Decimal_of_string
                  (SimpleFinTransactionDict.amount transaction) with
          | Dec_invalid => Raise (OtherError "decimal.InvalidOperation")
          | Dec_special _ => Ok None
          | Dec_finite amount =>
              Ok (Some (SimpleFinTransaction.mk
                          (SimpleFinTransactionDict.id transaction)
                          amount
                          (SimpleFinTransactionDict.description transaction)
                          (SimpleFinTransactionDict.memo transaction)
                          (SimpleFinTransactionDict.payee transaction)
                          posted transacted_at None None))
          end
      end
  end.

(** [[SimpleFinTransaction.from_dict(t) for t in account["transactions"]]]:
    one new object per record, in order; the first record that fails ends
    the comprehension. *)
Fixpoint transactions_from_dicts
    (transactions : list SimpleFinTransactionDict.t) (σ : heap)
    : outcome (option (list ref * heap)) :=
  match transactions with
  | [] => Ok (Some ([], σ))
  | transaction :: transactions' =>
      match SimpleFinTransaction_from_dict transaction with
      | Raise e => Raise e
      | Ok None =>
          match transactions_from_dicts transactions' σ with
          | Raise e => Raise e
          | Ok _ => Ok None
          end
      | Ok (Some t) =>
          let '(r, σ) := alloc t σ in
          match transactions_from_dicts transactions' σ with
          | Raise e => Raise e
          | Ok None => Ok None
          | Ok (Some (refs, σ)) => Ok (Some (r :: refs, σ))
          end
      end
  end.

(** [SimpleFinAccount.from_dict] *)
Definition SimpleFinAccount_from_dict (account : SimpleFinAccountDict.t)
    (σ : heap) : outcome (option (SimpleFinAccount.t * heap)) :=
  match transactions_from_dicts
          (SimpleFinAccountDict.transactions account) σ with
  | Raise e => Raise e
  | Ok None => Ok None
  | Ok (Some (transactions, σ)) =>
      Ok (Some (SimpleFinAccount.mk
                  (SimpleFinAccountDict.available_balance account)
                  (SimpleFinAccountDict.balance account)
                  (SimpleFinAccountDict.balance_date account)
                  (SimpleFinAccountDict.currency account)
                  (SimpleFinAccountDict.id account)
                  (SimpleFinAccountDict.name account)
                  transactions, σ))
  end.

(** [[SimpleFinAccount.from_dict(a) for a in data["accounts"]]] *)
Fixpoint accounts_from_dicts (accounts : list SimpleFinAccountDict.t)
    (σ : heap) : outcome (option (list SimpleFinAccount.t * heap)) :=
  match accounts with
  | [] => Ok (Some ([], σ))
  | account :: accounts' =>
      match SimpleFinAccount_from_dict account σ with
      | Raise e => Raise e
      | Ok None =>
          match accounts_from_dicts accounts' σ with
          | Raise e => Raise e
          | Ok _ => Ok None
          end
      | Ok (Some (a, σ)) =>
          match accounts_from_dicts accounts' σ with
          | Raise e => Raise e
          | Ok None => Ok None
          | Ok (Some (accounts, σ)) => Ok (Some (a :: accounts, σ))
          end
      end
  end.

(** The body of an HTTP answer after [json.loads] and the shape test
    [is_simplefin_response]: text that is not JSON, JSON that the test
    turns down (no object, or one without the key ["accounts"]), or a
    response as [SimpleFinResponseDict] declares it, the keys ["errors"]
    and ["x_api_message"] there or not.  An object that has the key
    ["accounts"] but is not as declared - a key missing further down, a
    value of another type - is none of the three and outside this model. *)
Inductive simplefin_body :=
  | SimpleFinNotJson
  | SimpleFinNotResponse
  | SimpleFinBody (data : SimpleFinResponseDict.t).

(** [SimpleFinClient.fetch_data] on the answer to its one request: the
    accounts of [SimpleFinResponse.from_dict(data)]. *)
Definition fetch_data (status : Z) (body : simplefin_body) (σ : heap)
    : outcome (option (list SimpleFinAccount.t * heap)) :=
  if negb (status =? 200) then Raise (OtherError "ValueError")
  else
    match body with
    | SimpleFinNotJson => Raise (OtherError "json.JSONDecodeError")
    | SimpleFinNotResponse => Raise (OtherError "ValueError")
    | SimpleFinBody data =>
        accounts_from_dicts (SimpleFinResponseDict.accounts data) σ
    end.
End FromDict.

(** The transaction records of a response, in order. *)
Definition response_transactions (data : SimpleFinResponseDict.t)
    : list SimpleFinTransactionDict.t :=
  concat (SimpleFinAccountDict.transactions
            <$> SimpleFinResponseDict.accounts data).

(** A record with both time stamps in the range of [datetime] and an
    amount that reads as a finite number. *)
Definition transaction_dict_ok (Decimal_of_string : string → Decimal_read)
    (d : SimpleFinTransactionDict.t) : Prop :=
  datetime_min ≤ SimpleFinTransactionDict.posted d ≤ datetime_max
  ∧ datetime_min ≤ SimpleFinTransactionDict.transacted_at d ≤ datetime_max
  ∧ ∃ amount,
      Decimal_of_string (SimpleFinTransactionDict.amount d)
      = Dec_finite amount.

(** A record with a time stamp outside the range of [datetime], or an amount
    [Decimal] does not read. *)
Definition transaction_dict_bad (Decimal_of_string : string → Decimal_read)
    (d : SimpleFinTransactionDict.t) : Prop :=
  ¬ datetime_min ≤ SimpleFinTransactionDict.posted d ≤ datetime_max
  ∨ ¬ datetime_min ≤ SimpleFinTransactionDict.transacted_at d ≤ datetime_max
  ∨ Decimal_of_string (SimpleFinTransactionDict.amount d) = Dec_invalid.

(** The objects of [refs] in [σ'] are new with respect to [σ], pairwise
    different, and each the conversion of the record at its place in
    [dicts]; the objects of [σ] are as they were. *)
Definition new_objects (Decimal_of_string : string → Decimal_read)
    (σ σ' : heap) (refs : list ref)
    (dicts : list SimpleFinTransactionDict.t) : Prop :=
  NoDup refs
  ∧ (∀ r, r ∈ refs → r ∉ dom σ)
  ∧ dom σ' = dom σ ∪ list_to_set refs
  ∧ (∀ r, r ∈ dom σ → σ' !! r = σ !! r)
  ∧ Forall2 (λ r d, ∃ t, σ' !! r = Some t
                      ∧ SimpleFinTransaction_from_dict Decimal_of_string d
                        = Ok (Some t))
            refs dicts.

(** A parser for the examples: it reads plain numerals - digits with an
    optional sign and an optional point - and the special values written
    [NaN], [sNaN], [Infinity] and [-Infinity] as [Decimal(s)] does, and
    nothing else; the sample records use no other form. *)
Definition digit_of (c : Ascii.ascii) : option Z :=
  let n := Z.of_nat (Ascii.nat_of_ascii c) in
  if (48 <=? n) && (n <=? 57) then Some (n - 48) else None.

Fixpoint plain_digits (s : string) (acc : Z) (seen : bool) (point : option Z)
    : option Decimal :=
  match s with
  | EmptyString =>
      if seen then Some (mkDecimal acc (default 0 point)) else None
  | String c s' =>
      match digit_of c with
      | Some n =>
          plain_digits s' (10 * acc + n) true ((λ e, e - 1) <$> point)
      | None =>
          if Ascii.eqb c (Ascii.ascii_of_nat 46) then
            match point with
            | None => plain_digits s' acc seen (Some 0)
            | Some _ => None
            end
          else None
      end
  end.

Definition plain_numeral (s : string) : option Decimal :=
  match s with
  | String c s' =>
      if Ascii.eqb c (Ascii.ascii_of_nat 45) then
        (λ d, mkDecimal (- coefficient d) (exponent d))
          <$> plain_digits s' 0 false None
      else if Ascii.eqb c (Ascii.ascii_of_nat 43) then plain_digits s' 0 false None
      else plain_digits s 0 false None
  | EmptyString => None
  end.

Definition plain_Decimal_of_string (s : string) : Decimal_read :=
  if String.eqb s "NaN" || String.eqb s "Infinity" || String.eqb s "-Infinity"
  then Dec_special false
  else if String.eqb s "sNaN" then Dec_special true
  else
    match plain_numeral s with
    | Some d => Dec_finite d
    | None => Dec_invalid
    end.

Definition sample_response : SimpleFinResponseDict.t :=
  SimpleFinResponseDict.mk
    [SimpleFinAccountDict.mk "100.00" "100.00" 1710072000 "USD" "acc-1"
       "Checking"
       [SimpleFinTransactionDict.mk "t1" "-42.50" "Card purchase" ""
          "ACME CORP" (noon 2024 3 11) (noon 2024 3 10);
        SimpleFinTransactionDict.mk "t3" "-12.34" "Card purchase" ""
          "CORNER SHOP" (noon 2024 3 2) (noon 2024 3 1)];
     SimpleFinAccountDict.mk "5.00" "5.00" 1710072000 "USD" "acc-2"
       "Savings"
       [SimpleFinTransactionDict.mk "t4" "-42.5" "Card purchase" ""
          "ACME CORP" (noon 2024 3 12) (noon 2024 3 10 + 3600)]]
    None None.


(** The response with an amount that is no number put first. *)
Definition sample_response_nan : SimpleFinResponseDict.t :=
  SimpleFinResponseDict.mk
    (SimpleFinAccountDict.mk "0.00" "0.00" 1710072000 "USD" "acc-0" "Cash"
       [SimpleFinTransactionDict.mk "t0" "NaN" "Cash" "" "CASH"
          (noon 2024 3 11) (noon 2024 3 10)]
     :: SimpleFinResponseDict.accounts sample_response)
    None None.
(** ** budget/models/paperless.py: Document.from_dict *)

(** *** Unary minus of a [Decimal]

    [-d] negates and then rounds to the default context: precision 28,
    round half even, exponents from [Emin] = -999999 to [Emax] = 999999,
    the [Overflow] trap set and [Underflow] not. *)
Definition decimal_prec : Z := 28.
Definition decimal_Emax : Z := 999999.
Definition decimal_Emin : Z := -999999.
Definition decimal_Etiny : Z := decimal_Emin - decimal_prec + 1.
Definition decimal_Etop : Z := decimal_Emax - decimal_prec + 1.

(** Number of decimal digits of a coefficient that is not zero. *)
Definition digits10 (c : Z) : Z := Z.of_nat (String.length (pretty (Z.abs c))).

(** [Decimal._fix(context)]: the decimal rounded into the context. *)
Definition Decimal_fix (d : Decimal) : outcome Decimal :=
  let c := coefficient d in
  let e := exponent d in
  if c =? 0 then
    Ok (mkDecimal 0 (Z.min (Z.max e decimal_Etiny) decimal_Emax))
  else
    let exp_min := digits10 c + e - decimal_prec in
    if decimal_Etop <? exp_min then Raise (OtherError "decimal.Overflow")
    else
      let exp_min := Z.max exp_min decimal_Etiny in
      if e <? exp_min then
        let scale := 10 ^ (exp_min - e) in
        let q := Z.abs c / scale in
        let r := Z.abs c mod scale in
        let coeff :=
          if (scale <? 2 * r) || ((scale =? 2 * r) && Z.odd q)
          then q + 1 else q in
        let '(coeff, exp_min) :=
          if negb (coeff =? 0) && (decimal_prec <? digits10 coeff)
          then (coeff / 10, exp_min + 1) else (coeff, exp_min) in
        if decimal_Etop <? exp_min then Raise (OtherError "decimal.Overflow")
        else Ok (mkDecimal (Z.sgn c * coeff) exp_min)
      else Ok d.

(** [-d] *)
Definition Decimal_neg (d : Decimal) : outcome Decimal :=
  Decimal_fix (mkDecimal (- coefficient d) (exponent d)).

(** *** The raw records *)

Module CustomFieldDict.
Record t := mk {
  value : string;
  field : Z;
}.
End CustomFieldDict.

Module DocumentDict.
Record t := mk {
  id : Z;
  document_type : Z;
  title : string;
  content : string;
  tags : list string;
  created : string;
  created_date : string;
  custom_fields : list CustomFieldDict.t;
}.
End DocumentDict.

Module ResponseDict.
Record t := mk {
  count : Z;
  next : option string;
  results : list DocumentDict.t;
}.
End ResponseDict.

(** [class CustomField(IntEnum)] *)
Definition CustomField_TOTAL : Z := 1.
Definition CustomField_CATEGORY : Z := 3.

(** [s.replace("USD", "")]: every occurrence, found from the left and not
    overlapping, is removed. *)
Fixpoint replace_USD (s : string) : string :=
  match s with
  | EmptyString => EmptyString
  | String c1 rest1 =>
      match rest1 with
      | String c2 (String c3 rest3) =>
          if Ascii.eqb c1 (Ascii.ascii_of_nat 85)
             && Ascii.eqb c2 (Ascii.ascii_of_nat 83)
             && Ascii.eqb c3 (Ascii.ascii_of_nat 68)
          then replace_USD rest3
          else String c1 (replace_USD rest1)
      | _ => String c1 (replace_USD rest1)
      end
  end.

(** [next((f for f in fields if f["field"] == n), None)] *)
Definition first_field (n : Z) (fields : list CustomFieldDict.t)
    : option CustomFieldDict.t :=
  head (filter (λ f, CustomFieldDict.field f = n) fields).

(** Two parts of a list put together, where the model has both. *)
Definition both {A} (first : option (list A → list A))
    (rest : option (list A)) : option (list A) :=
  match first, rest with
  | Some f, Some l => Some (f l)
  | _, _ => None
  end.

Section Paperless.
(** [date.fromisoformat(s)]: the date, or [None] where it raises
    [ValueError]; and [Decimal(s)] as for the transactions. *)
Variable date_fromisoformat : string → option date.
Variable Decimal_of_string : string → Decimal_read.

(** [Document.from_dict]: the date is read first, then the total, then the
    category.  The minus of a signalling NaN raises
    [decimal.InvalidOperation]; that of a quiet NaN or an infinity is a
    special value again. *)
Definition Document_from_dict (data : DocumentDict.t)
    : outcome (option Document.t) :=
  match date_fromisoformat (DocumentDict.created_date data) with
  | None => Raise (OtherError "ValueError")
  | Some created =>
      let total : outcome (option (option Decimal)) :=
        match first_field CustomField_TOTAL
                (DocumentDict.custom_fields data) with
        | None => Ok (Some None)
        | Some total_field =>
            match Decimal_of_string
                    (replace_USD (CustomFieldDict.value total_field)) with
            | Dec_invalid => Raise (OtherError "decimal.InvalidOperation")
            | Dec_special true =>
                Raise (OtherError "decimal.InvalidOperation")
            | Dec_special false => Ok None
            | Dec_finite d =>
                match Decimal_neg d with
                | Ok total => Ok (Some (Some total))
                | Raise e => Raise e
                end
            end
        end in
      match total with
      | Raise e => Raise e
      | Ok None => Ok None
      | Ok (Some total) =>
          let category :=
            CustomFieldDict.value
              <$> first_field CustomField_CATEGORY
                    (DocumentDict.custom_fields data) in
          Ok (Some (Document.mk (DocumentDict.id data) created total
                                (DocumentDict.title data) category))
      end
  end.

(** [Document.from_dict] over the records of a page, in order; the first
    record that fails ends it. *)
Fixpoint documents_from_dicts (results : list DocumentDict.t)
    : outcome (option (list Document.t)) :=
  match results with
  | [] => Ok (Some [])
  | data :: results' =>
      match Document_from_dict data with
      | Raise e => Raise e
      | Ok document =>
          match documents_from_dicts results' with
          | Raise e => Raise e
          | Ok documents => Ok (both (cons <$> document) documents)
          end
      end
  end.

(** ** budget/clients/paperless.py *)

(** The body of an answer after [json.loads] and the shape test
    [is_response_dict]: text that is not JSON, JSON that the test turns
    down, or a response as [ResponseDict] declares it; an object that
    passes the test but is not as declared is outside this model. *)
Inductive paperless_body :=
  | PaperlessNotJson
  | PaperlessNotResponse
  | PaperlessBody (data : ResponseDict.t).

(** The server: what a GET of a URL answers, status and body. *)
Variable server : string → Z * paperless_body.

(** [_inner_fetch_documents(url)], consumed to the end as [list(...)] does.
    Each page nests one generator deeper; [depth] is how deep the
    interpreter lets the recursion go before it raises [RecursionError]. *)
Fixpoint inner_fetch_documents (depth : nat) (url : string)
    : outcome (option (list Document.t)) :=
  match depth with
  | O => Raise (OtherError "RecursionError")
  | S depth' =>
      let '(status, body) := server url in
      if negb (status =? 200) then Raise (OtherError "ValueError")
      else
        match body with
        | PaperlessNotJson => Raise (OtherError "json.JSONDecodeError")
        | PaperlessNotResponse => Raise (OtherError "ValueError")
        | PaperlessBody data =>
            match documents_from_dicts (ResponseDict.results data) with
            | Raise e => Raise e
            | Ok documents =>
                if truthy (ResponseDict.next data) then
                  match inner_fetch_documents depth'
                          (default "" (ResponseDict.next data)) with
                  | Raise e => Raise e
                  | Ok more => Ok (both (app <$> documents) more)
                  end
                else Ok documents
            end
        end
  end.

(** [fetch_documents()] with its default document type. *)
Definition fetch_documents (depth : nat)
    : outcome (option (list Document.t)) :=
  inner_fetch_documents depth
    "/api/documents/?document_type__name__iexact=receipt".

(** The pages a fetch that starts at [url] goes through: every page answers
    200 with a response, each but the last names the next, the last names
    none. *)
Inductive page_chain : string → list ResponseDict.t → Prop :=
  | chain_last url data :
      server url = (200, PaperlessBody data) →
      truthy (ResponseDict.next data) = false →
      page_chain url [data]
  | chain_next url data pages :
      server url = (200, PaperlessBody data) →
      truthy (ResponseDict.next data) = true →
      page_chain (default "" (ResponseDict.next data)) pages →
      page_chain url (data :: pages).
End Paperless.

(** The records of a list of pages, in order. *)
Definition pages_results (pages : list ResponseDict.t) : list DocumentDict.t :=
  concat (ResponseDict.results <$> pages).

(** A reader of dates for the examples: it reads the form [YYYY-MM-DD], as
    [date.fromisoformat] does, and no other; the sample records use no
    other form. *)
Fixpoint digits_from (acc : Z) (s : string) : option Z :=
  match s with
  | EmptyString => Some acc
  | String c s' =>
      match digit_of c with
      | Some n => digits_from (10 * acc + n) s'
      | None => None
      end
  end.

Definition digits_value (s : string) : option Z := digits_from 0 s.

Definition plain_date_fromisoformat (s : string) : option date :=
  if (String.length s =? 10)%nat
     && bool_decide (String.get 4 s = Some (Ascii.ascii_of_nat 45))
     && bool_decide (String.get 7 s = Some (Ascii.ascii_of_nat 45))
  then
    y ← digits_value (String.substring 0 4 s);
    m ← digits_value (String.substring 5 2 s);
    d ← digits_value (String.substring 8 2 s);
    let z := days_from_civil y m d in
    if (1 <=? y) && bool_decide (civil_from_days z = (y, m, d))
    then Some z else None
  else None.

Definition sample_document_dict (id : Z) (created_date : string)
    (custom_fields : list CustomFieldDict.t) : DocumentDict.t :=
  DocumentDict.mk id 1 "Company Name" "" [] "2024-03-09T00:00:00-04:00"
                  created_date custom_fields.

(** A record with total and category, one with two total fields, and one
    without total. *)
Definition dict_1675 : DocumentDict.t :=
  sample_document_dict 18 "2024-03-09"
    [CustomFieldDict.mk "USD16.75" 1; CustomFieldDict.mk "Dining" 3].
Definition dict_two_totals : DocumentDict.t :=
  sample_document_dict 19 "2024-03-15"
    [CustomFieldDict.mk "Travel" 3; CustomFieldDict.mk "USD42.50" 1;
     CustomFieldDict.mk "USD1.00" 1].
Definition dict_no_total : DocumentDict.t :=
  sample_document_dict 20 "2024-03-10" [CustomFieldDict.mk "Misc" 3].

(** A server with two pages of receipts. *)
Definition sample_server (url : string) : Z * paperless_body :=
  if String.eqb url "/api/documents/?document_type__name__iexact=receipt"
  then (200, PaperlessBody
               (ResponseDict.mk 3 (Some "http://paperless/api/documents/?page=2")
                                [dict_1675; dict_two_totals]))
  else if String.eqb url "http://paperless/api/documents/?page=2"
  then (200, PaperlessBody (ResponseDict.mk 3 None [dict_no_total]))
  else (404, PaperlessNotJson).

Definition sample_pages : list ResponseDict.t :=
  [ResponseDict.mk 3 (Some "http://paperless/api/documents/?page=2")
                   [dict_1675; dict_two_totals];
   ResponseDict.mk 3 None [dict_no_total]].

(** * Properties *)

(** ** Decimal equality is an equivalence *)

Lemma Decimal_eqb_eq d1 d2 :
  Decimal_eqb d1 d2 = true ↔ (Decimal_value d1 == Decimal_value d2)%Q.
Proof. unfold Decimal_eqb. apply Qeq_bool_iff. Qed.

Lemma Decimal_eqb_refl d : Decimal_eqb d d = true.
Proof. apply Decimal_eqb_eq. reflexivity. Qed.

Lemma Decimal_eqb_sym d1 d2 : Decimal_eqb d1 d2 = Decimal_eqb d2 d1.
Proof.
  apply eq_true_iff_eq. rewrite !Decimal_eqb_eq.
  split; intros H; symmetry; exact H.
Qed.

Lemma Decimal_eqb_trans d1 d2 d3 :
  Decimal_eqb d1 d2 = true → Decimal_eqb d2 d3 = true →
  Decimal_eqb d1 d3 = true.
Proof.
  rewrite !Decimal_eqb_eq. intros H12 H23.
  transitivity (Decimal_value d2); assumption.
Qed.

(** Two keys that agree with each other agree on every probe. *)
Lemma Decimal_eqb_congr k t a :
  Decimal_eqb k t = true → Decimal_eqb k a = Decimal_eqb t a.
Proof.
  intros Hkt. apply eq_true_iff_eq. split; intros H.
  - apply Decimal_eqb_trans with k; [|exact H].
    rewrite Decimal_eqb_sym. exact Hkt.
  - apply Decimal_eqb_trans with t; assumption.
Qed.

Lemma Decimal_value_zero d : coefficient d = 0 → (Decimal_value d == 0)%Q.
Proof. intros H. unfold Decimal_value. rewrite H. apply Qmult_0_l. Qed.

Lemma Decimal_value_nonzero d :
  coefficient d ≠ 0 → ¬ (Decimal_value d == 0)%Q.
Proof.
  intros Hc H. unfold Decimal_value in H.
  apply Qmult_integral in H as [H|H].
  - apply Hc. unfold Qeq in H. simpl in H. lia.
  - revert H. apply Qpower_not_0. discriminate.
Qed.

(** A zero amount matches no truthy total. *)
Lemma Decimal_eqb_zero total amount :
  Decimal_bool total = true → coefficient amount = 0 →
  Decimal_eqb total amount = false.
Proof.
  intros Ht Ha. apply not_true_is_false. rewrite Decimal_eqb_eq. intros H.
  apply (Decimal_value_nonzero total).
  - unfold Decimal_bool in Ht. apply negb_true_iff, Z.eqb_neq in Ht. exact Ht.
  - rewrite H. apply Decimal_value_zero. exact Ha.
Qed.

(** ** The amount buckets *)

Lemma grouped_get_append g total receipt amount :
  grouped_get (grouped_append g total receipt) amount =
  if Decimal_eqb total amount
  then grouped_get g amount ++ [receipt]
  else grouped_get g amount.
Proof.
  induction g as [|[k documents] g IH]; simpl.
  - destruct (Decimal_eqb total amount); reflexivity.
  - destruct (Decimal_eqb k total) eqn:Hkt; simpl.
    + rewrite <- (Decimal_eqb_congr k total amount Hkt).
      destruct (Decimal_eqb k amount); reflexivity.
    + destruct (Decimal_eqb k amount) eqn:Hka; [|exact IH].
      destruct (Decimal_eqb total amount) eqn:Hta; [|reflexivity].
      exfalso. rewrite Decimal_eqb_sym in Hta.
      rewrite (Decimal_eqb_trans _ _ _ Hka Hta) in Hkt. discriminate.
Qed.

Lemma grouped_get_group_receipt g receipt amount :
  grouped_get (group_receipt g receipt) amount =
  grouped_get g amount ++ (if candidate amount receipt then [receipt] else []).
Proof.
  unfold group_receipt, candidate.
  destruct (Document.total receipt) as [total|]; [|by rewrite app_nil_r].
  destruct (Decimal_bool total); simpl; [|by rewrite app_nil_r].
  rewrite grouped_get_append.
  destruct (Decimal_eqb total amount); [reflexivity|by rewrite app_nil_r].
Qed.

Lemma grouped_get_foldl receipts g amount :
  grouped_get (foldl group_receipt g receipts) amount =
  grouped_get g amount ++ filter (λ r, candidate amount r = true) receipts.
Proof.
  revert g. induction receipts as [|r receipts IH]; intros g; simpl.
  - by rewrite app_nil_r.
  - rewrite IH, grouped_get_group_receipt, <- app_assoc. f_equal.
    destruct (candidate amount r) eqn:Hc.
    + rewrite filter_cons_True by done. reflexivity.
    + rewrite filter_cons_False by (rewrite Hc; done). reflexivity.
Qed.

(** The bucket of an amount holds exactly the candidates for it, in the order
    the receipts were supplied. *)
Lemma grouped_get_group_receipts receipts amount :
  grouped_get (group_receipts receipts) amount =
  filter (λ r, candidate amount r = true) receipts.
Proof. unfold group_receipts. by rewrite grouped_get_foldl. Qed.

(** ** Sorting *)

Section Sorting.
Context {A : Type} (key : A → Z) (reverse : bool).

Lemma insort_Permutation x l : insort (key_le key reverse) x l ≡ₚ x :: l.
Proof.
  induction l as [|y l IH]; simpl; [reflexivity|].
  destruct (key_le key reverse x y); [reflexivity|].
  rewrite IH. apply Permutation_swap.
Qed.

Lemma sorted_Permutation l : sorted key reverse l ≡ₚ l.
Proof.
  induction l as [|x l IH]; simpl; [reflexivity|].
  unfold sorted in *. simpl. rewrite insort_Permutation. by rewrite IH.
Qed.

Lemma elem_of_sorted x l : x ∈ sorted key reverse l ↔ x ∈ l.
Proof. by rewrite sorted_Permutation. Qed.

Lemma key_le_rel x y :
  key_le key reverse x y = true ↔ key_rel key reverse x y.
Proof. unfold key_le, key_rel. destruct reverse; apply Z.leb_le. Qed.

Lemma key_rel_total x y : key_rel key reverse x y ∨ key_rel key reverse y x.
Proof. unfold key_rel. destruct reverse; lia. Qed.

Lemma key_rel_trans x y z :
  key_rel key reverse x y → key_rel key reverse y z → key_rel key reverse x z.
Proof. unfold key_rel. destruct reverse; lia. Qed.

Lemma insort_StronglySorted x l :
  StronglySorted (key_rel key reverse) l →
  StronglySorted (key_rel key reverse) (insort (key_le key reverse) x l).
Proof.
  induction 1 as [|y l Hl IH Hy]; simpl.
  - repeat constructor.
  - destruct (key_le key reverse x y) eqn:Hxy.
    + apply key_le_rel in Hxy. constructor.
      * by constructor.
      * constructor; [exact Hxy|].
        eapply Forall_impl; [exact Hy|]. intros z Hz.
        by apply key_rel_trans with y.
    + constructor; [exact IH|].
      rewrite insort_Permutation. constructor; [|exact Hy].
      destruct (key_rel_total x y) as [H|H]; [|exact H].
      apply key_le_rel in H. congruence.
Qed.

Lemma sorted_StronglySorted l :
  StronglySorted (key_rel key reverse) (sorted key reverse l).
Proof.
  induction l as [|x l IH]; [constructor|].
  unfold sorted in *. simpl. by apply insort_StronglySorted.
Qed.

(** The first element of the sorted list: the leftmost of the elements that
    come first in the order. *)
Lemma head_insort x l :
  head (insort (key_le key reverse) x l) =
  match head l with
  | Some y => if key_le key reverse x y then Some x else Some y
  | None => Some x
  end.
Proof.
  destruct l as [|y l]; simpl; [reflexivity|].
  destruct (key_le key reverse x y); reflexivity.
Qed.

Lemma head_sorted_cons x l :
  head (sorted key reverse (x :: l)) =
  match head (sorted key reverse l) with
  | Some y => if key_le key reverse x y then Some x else Some y
  | None => Some x
  end.
Proof. unfold sorted. simpl. apply head_insort. Qed.

Lemma head_sorted_None l : head (sorted key reverse l) = None ↔ l = [].
Proof.
  destruct l as [|x l]; [done|]. rewrite head_sorted_cons.
  split; [|done]. destruct (head (sorted key reverse l)); [|done].
  by destruct (key_le key reverse x a).
Qed.

Lemma head_sorted_first x l :
  head (sorted key reverse l) = Some x →
  x ∈ l ∧ ∀ y, y ∈ l → key_rel key reverse x y.
Proof.
  intros Hx. pose proof (sorted_StronglySorted l) as Hs.
  destruct (sorted key reverse l) as [|x' s] eqn:Hsl; [done|].
  simpl in Hx. injection Hx as ->.
  apply StronglySorted_cons in Hs as [Hall _].
  split.
  - apply elem_of_sorted. rewrite Hsl. by left.
  - intros y Hy. apply elem_of_sorted in Hy. rewrite Hsl in Hy.
    apply elem_of_cons in Hy as [->|Hy].
    + destruct (key_rel_total x x); done.
    + by eapply Forall_forall in Hall.
Qed.
End Sorting.

(** ** In-place updates of heap objects along a list of references *)

Section Alter.
Context {T : Type} (f : T → T).

Lemma alter_all_cons (σ : gmap nat T) r refs :
  alter_all f σ (r :: refs) = alter_all f (alter f r σ) refs.
Proof. reflexivity. Qed.

Lemma alter_all_not_elem σ refs r :
  r ∉ refs → alter_all f σ refs !! r = σ !! r.
Proof.
  revert σ. induction refs as [|r' refs IH]; intros σ Hr; [done|].
  apply not_elem_of_cons in Hr as [Hne Hr]. rewrite alter_all_cons.
  rewrite IH by done. by rewrite lookup_alter_ne.
Qed.

(** Objects listed once are updated once. *)
Lemma alter_all_NoDup σ refs r :
  NoDup refs → r ∈ refs → alter_all f σ refs !! r = f <$> σ !! r.
Proof.
  revert σ. induction refs as [|r' refs IH]; intros σ Hnd Hr.
  - by apply elem_of_nil in Hr.
  - apply NoDup_cons in Hnd as [Hnotin Hnd]. rewrite alter_all_cons.
    apply elem_of_cons in Hr as [->|Hr].
    + rewrite alter_all_not_elem by done. by rewrite lookup_alter_eq.
    + rewrite IH by done.
      rewrite lookup_alter_ne; [done|]. intros ->. done.
Qed.

(** An update that does nothing the second time may as well be applied once,
    however often the object is listed. *)
Lemma alter_all_idemp σ refs r :
  (∀ x, f (f x) = f x) →
  r ∈ refs → alter_all f σ refs !! r = f <$> σ !! r.
Proof.
  intros Hf. revert σ. induction refs as [|r' refs IH]; intros σ Hr.
  - by apply elem_of_nil in Hr.
  - rewrite alter_all_cons.
    destruct (decide (r ∈ refs)) as [Hin|Hnotin].
    + rewrite IH by done. destruct (decide (r' = r)) as [->|Hne].
      * rewrite lookup_alter_eq. destruct (σ !! r); simpl; [|done].
        by rewrite Hf.
      * by rewrite lookup_alter_ne.
    + rewrite alter_all_not_elem by done.
      apply elem_of_cons in Hr as [->|Hr]; [|done].
      by rewrite lookup_alter_eq.
Qed.

(** A relation between the first and the current state of an object that
    every update extends holds at the end. *)
Lemma alter_all_rel (R : T → T → Prop) σ refs r x :
  (∀ x, R x x) → (∀ x y, R x y → R x (f y)) →
  σ !! r = Some x →
  ∃ y, alter_all f σ refs !! r = Some y ∧ R x y.
Proof.
  intros Hrefl Hstep. revert σ.
  enough (∀ σ y, σ !! r = Some y → R x y →
                 ∃ z, alter_all f σ refs !! r = Some z ∧ R x z) as H.
  { intros σ Hx. by apply (H σ x). }
  induction refs as [|r' refs IH]; intros σ y Hy HR.
  - by exists y.
  - rewrite alter_all_cons.
    destruct (decide (r' = r)) as [->|Hne].
    + apply (IH _ (f y)); [|by apply Hstep].
      by rewrite lookup_alter_eq, Hy.
    + apply (IH _ y); [|done]. by rewrite lookup_alter_ne.
Qed.
End Alter.

Lemma alter_all_app {T} (f : T → T) (σ : gmap nat T) l1 l2 :
  alter_all f σ (l1 ++ l2) = alter_all f (alter_all f σ l1) l2.
Proof. unfold alter_all. apply foldl_app. Qed.

(** ** attach_receipts *)

(** The nested loops visit the references of all accounts in order. *)
Lemma attach_account_spec g σ done account :
  attach_account g (σ, done) account =
  (alter_all (attach_receipt g) σ (SimpleFinAccount.transactions account),
   done ++ SimpleFinAccount.transactions account).
Proof.
  unfold attach_account.
  generalize (SimpleFinAccount.transactions account) as refs.
  intros refs. revert σ done.
  induction refs as [|r refs IH]; intros σ done.
  - simpl. by rewrite app_nil_r.
  - rewrite alter_all_cons. cbn [foldl]. rewrite IH, <- app_assoc.
    reflexivity.
Qed.

Lemma attach_accounts_spec g σ done accounts :
  foldl (attach_account g) (σ, done) accounts =
  (alter_all (attach_receipt g) σ (account_refs accounts),
   done ++ account_refs accounts).
Proof.
  revert σ done. induction accounts as [|a accounts IH]; intros σ done; simpl.
  - by rewrite app_nil_r.
  - rewrite attach_account_spec, IH. unfold account_refs. simpl.
    by rewrite alter_all_app, <- app_assoc.
Qed.

Lemma attach_receipts_spec accounts receipts σ :
  attach_receipts accounts receipts σ =
  let σ' := alter_all (attach_receipt (group_receipts receipts)) σ
                      (account_refs accounts) in
  (sorted (transacted_at_of σ') true (account_refs accounts), σ').
Proof. unfold attach_receipts. by rewrite attach_accounts_spec. Qed.

(** The assignments of the loop body read only [amount] and [transacted_at],
    which they leave alone: a second visit changes nothing. *)
Lemma attach_receipt_idemp g t :
  attach_receipt g (attach_receipt g t) = attach_receipt g t.
Proof. reflexivity. Qed.

Lemma attach_receipt_amount g t :
  SimpleFinTransaction.amount (attach_receipt g t) =
  SimpleFinTransaction.amount t.
Proof. reflexivity. Qed.

Lemma attach_receipt_receipt receipts t :
  SimpleFinTransaction.receipt (attach_receipt (group_receipts receipts) t) =
  pick_document t
    (filter (λ r, candidate (SimpleFinTransaction.amount t) r = true)
            receipts).
Proof.
  unfold attach_receipt. simpl. by rewrite grouped_get_group_receipts.
Qed.

(** Every transaction of the result is the loop body applied to the object as
    it was before the call. *)
Lemma attach_receipts_lookup accounts receipts σ r t :
  r ∈ (attach_receipts accounts receipts σ).1 →
  (attach_receipts accounts receipts σ).2 !! r = Some t →
  ∃ t0, σ !! r = Some t0 ∧ t = attach_receipt (group_receipts receipts) t0.
Proof.
  rewrite attach_receipts_spec. simpl. rewrite elem_of_sorted. intros Hr.
  rewrite alter_all_idemp by (done || apply attach_receipt_idemp).
  destruct (σ !! r) as [t0|]; simpl; intros [= <-]. by exists t0.
Qed.

(** What the selection returns: a member of the bucket whose signed day
    difference to the transaction is least. *)
Lemma pick_document_Some transaction documents d :
  pick_document transaction documents = Some d →
  d ∈ documents ∧
  ∀ d', d' ∈ documents →
        receipt_key transaction d ≤ receipt_key transaction d'.
Proof. intros H. by apply head_sorted_first in H. Qed.

Lemma pick_document_None transaction documents :
  pick_document transaction documents = None ↔ documents = [].
Proof. apply head_sorted_None. Qed.

(** The least signed difference belongs to the latest receipt, whichever side
    of the transaction date it lies on. *)
Lemma pick_document_latest transaction documents d :
  pick_document transaction documents = Some d →
  ∀ d', d' ∈ documents → Document.date d' ≤ Document.date d.
Proof.
  intros H d' Hd'. apply pick_document_Some in H as [_ H].
  specialize (H d' Hd'). unfold receipt_key in H. lia.
Qed.

(** Sorting depends on the key only through its values on the list. *)
Lemma insort_ext {A} (key key' : A → Z) reverse x l :
  key x = key' x → Forall (λ y, key y = key' y) l →
  insort (key_le key reverse) x l = insort (key_le key' reverse) x l.
Proof.
  intros Hx. induction 1 as [|y l Hy _ IH]; simpl; [done|].
  unfold key_le at 1 3. rewrite Hx, Hy, IH. done.
Qed.

Lemma sorted_ext {A} (key key' : A → Z) reverse l :
  Forall (λ y, key y = key' y) l →
  sorted key reverse l = sorted key' reverse l.
Proof.
  induction 1 as [|x l Hx Hl IH]; [done|].
  change (insort (key_le key reverse) x (sorted key reverse l)
          = insort (key_le key' reverse) x (sorted key' reverse l)).
  rewrite <- IH. apply insort_ext; [done|].
  apply Forall_forall. intros y Hy%elem_of_sorted.
  rewrite Forall_forall in Hl. by apply Hl.
Qed.

(** Where no candidate is dated after the transaction, the signed key is the
    distance and the code selects the closest receipt. *)
Lemma pick_document_closest transaction documents :
  Forall (λ d, Document.date d
               ≤ datetime_date (SimpleFinTransaction.transacted_at transaction))
         documents →
  pick_document transaction documents = closest_document transaction documents.
Proof.
  intros Hpast. unfold pick_document, closest_document. f_equal.
  apply sorted_ext. eapply Forall_impl; [exact Hpast|].
  intros d Hd. cbv beta in Hd. unfold receipt_key. lia.
Qed.

(** C1, on the code: with the transaction of amount -42.50 transacted on
    2024-03-10 and the receipts of 2024-03-09 and 2024-03-15, both of total
    -42.50, [attach_receipts] attaches the receipt of 2024-03-15, five days
    away, and not the one of 2024-03-09, in whichever order the receipts are
    supplied: the sort key is the signed difference
    [transacted_at.date() - receipt.date], not its absolute value, by which
    the receipt of 2024-03-09 is the closest. *)
Theorem attach_receipts_signed_key_example :
  let attach receipts :=
    attach_receipts [sample_account [0%nat]] receipts
                    {[ 0%nat := transaction_0310 ]} in
  SimpleFinTransaction.receipt
    <$> (attach [receipt_0309; receipt_0315]).2 !! 0%nat
    = Some (Some receipt_0315)
  ∧ SimpleFinTransaction.receipt
      <$> (attach [receipt_0315; receipt_0309]).2 !! 0%nat
    = Some (Some receipt_0315)
  ∧ receipt_key transaction_0310 receipt_0309 = 1
  ∧ receipt_key transaction_0310 receipt_0315 = -5
  ∧ closest_document transaction_0310 [receipt_0309; receipt_0315]
    = Some receipt_0309.
Proof. vm_compute. done. Qed.

(** C2: every transaction that [attach_receipts] returns has no receipt, or
    has one of the receipts it was given, whose total is set and equals the
    amount of the transaction; so no receipt without a total is attached. *)
Theorem attach_receipts_receipt_matches accounts receipts σ r t :
  r ∈ (attach_receipts accounts receipts σ).1 →
  (attach_receipts accounts receipts σ).2 !! r = Some t →
  SimpleFinTransaction.receipt t = None
  ∨ ∃ d total,
      SimpleFinTransaction.receipt t = Some d
      ∧ d ∈ receipts
      ∧ Document.total d = Some total
      ∧ Decimal_eqb total (SimpleFinTransaction.amount t) = true.
Proof.
  intros Hr Ht.
  destruct (attach_receipts_lookup _ _ _ _ _ Hr Ht) as (t0 & _ & ->).
  rewrite attach_receipt_receipt, attach_receipt_amount.
  destruct (pick_document t0 _) as [d|] eqn:Hd; [right|by left].
  apply pick_document_Some in Hd as [Hd _].
  apply list_elem_of_filter in Hd as [Hc Hd]. unfold candidate in Hc.
  destruct (Document.total d) as [total|] eqn:Htotal; [|done].
  apply andb_true_iff in Hc as [_ Heq]. by exists d, total.
Qed.

Lemma attach_receipts_receipt_matches_witness :
  let out := attach_receipts [sample_account [0%nat; 2%nat]]
                             [receipt_0309; receipt_zero] sample_heap in
  0%nat ∈ out.1
  ∧ out.2 !! 0%nat = Some transaction_0310_attached
  ∧ (SimpleFinTransaction.receipt transaction_0310_attached = None
     ∨ ∃ d total,
         SimpleFinTransaction.receipt transaction_0310_attached = Some d
         ∧ d ∈ [receipt_0309; receipt_zero]
         ∧ Document.total d = Some total
         ∧ Decimal_eqb total
             (SimpleFinTransaction.amount transaction_0310_attached) = true).
Proof.
  assert (0%nat ∈ (attach_receipts [sample_account [0%nat; 2%nat]]
                     [receipt_0309; receipt_zero] sample_heap).1) as Hin.
  { vm_compute. apply list_elem_of_In. simpl. tauto. }
  assert ((attach_receipts [sample_account [0%nat; 2%nat]]
             [receipt_0309; receipt_zero] sample_heap).2 !! 0%nat
          = Some transaction_0310_attached) as Hlook.
  { by vm_compute. }
  split; [exact Hin|]. split; [exact Hlook|].
  exact (attach_receipts_receipt_matches _ _ _ _ _ Hin Hlook).
Defined.


(** The sort does not touch the time stamps it orders by. *)
Lemma attach_receipts_transacted_at accounts receipts σ r :
  transacted_at_of (attach_receipts accounts receipts σ).2 r =
  transacted_at_of σ r.
Proof.
  rewrite attach_receipts_spec. simpl. unfold transacted_at_of.
  destruct (decide (r ∈ account_refs accounts)) as [Hr|Hr].
  - rewrite alter_all_idemp by (done || apply attach_receipt_idemp).
    by destruct (σ !! r).
  - by rewrite alter_all_not_elem.
Qed.

(** No receipt is a candidate for a zero amount. *)
Lemma candidate_zero amount receipt :
  coefficient amount = 0 → candidate amount receipt = false.
Proof.
  intros Ha. unfold candidate.
  destruct (Document.total receipt) as [total|]; [|done].
  destruct (Decimal_bool total) eqn:Ht; [|done].
  by rewrite Decimal_eqb_zero.
Qed.

Lemma filter_candidate_zero amount receipts :
  coefficient amount = 0 →
  filter (λ r, candidate amount r = true) receipts = [].
Proof.
  intros Ha. induction receipts as [|r receipts IH]; [done|].
  rewrite filter_cons_False; [exact IH|].
  by rewrite candidate_zero.
Qed.

(** A receipt whose total is zero is in no bucket, like one without total. *)
Lemma zero_total_in_no_bucket receipts amount d :
  d ∈ grouped_get (group_receipts receipts) amount →
  ∃ total, Document.total d = Some total ∧ coefficient total ≠ 0.
Proof.
  rewrite grouped_get_group_receipts, list_elem_of_filter.
  intros [Hcand _]. unfold candidate, Decimal_bool in Hcand.
  destruct (Document.total d) as [total|]; [|done].
  exists total. split; [done|]. intros Hc. by rewrite Hc in Hcand.
Qed.

(** C10: a receipt whose total is zero is in no amount bucket, and a
    transaction whose amount is zero leaves [attach_receipts] without a
    receipt, whatever receipts were supplied. *)
Theorem attach_receipts_zero_total accounts receipts σ r t :
  r ∈ (attach_receipts accounts receipts σ).1 →
  (attach_receipts accounts receipts σ).2 !! r = Some t →
  coefficient (SimpleFinTransaction.amount t) = 0 →
  SimpleFinTransaction.receipt t = None
  ∧ ∀ amount d total,
      Document.total d = Some total → coefficient total = 0 →
      d ∉ grouped_get (group_receipts receipts) amount.
Proof.
  intros Hr Ht Hzero. split.
  - destruct (attach_receipts_lookup _ _ _ _ _ Hr Ht) as (t0 & _ & ->).
    rewrite attach_receipt_amount in Hzero. rewrite attach_receipt_receipt.
    apply pick_document_None. by apply filter_candidate_zero.
  - intros amount d total Htotal Hc Hd.
    apply zero_total_in_no_bucket in Hd as (total' & Htotal' & Hne).
    congruence.
Qed.

Lemma attach_receipts_zero_total_witness :
  let out := attach_receipts [sample_account [1%nat]]
                             [receipt_zero; receipt_0309] sample_heap in
  1%nat ∈ out.1
  ∧ out.2 !! 1%nat = Some transaction_zero
  ∧ coefficient (SimpleFinTransaction.amount transaction_zero) = 0
  ∧ SimpleFinTransaction.receipt transaction_zero = None
  ∧ ∀ amount d total,
      Document.total d = Some total → coefficient total = 0 →
      d ∉ grouped_get (group_receipts [receipt_zero; receipt_0309]) amount.
Proof.
  assert (1%nat ∈ (attach_receipts [sample_account [1%nat]]
                     [receipt_zero; receipt_0309] sample_heap).1) as Hin.
  { vm_compute. apply list_elem_of_In. simpl. tauto. }
  assert ((attach_receipts [sample_account [1%nat]]
             [receipt_zero; receipt_0309] sample_heap).2 !! 1%nat
          = Some transaction_zero) as Hlook.
  { by vm_compute. }
  split; [exact Hin|]. split; [exact Hlook|]. split; [reflexivity|].
  exact (attach_receipts_zero_total _ _ _ _ _ Hin Hlook eq_refl).
Defined.

(** ** categorize_transactions *)

(** The two decisions of the loop body, both taken on the rule found for the
    payee the transaction has when it is visited. *)
Lemma categorize_transaction_category mapping t :
  SimpleFinTransaction.category (categorize_transaction mapping t) =
  let rule := default (Category.mk None None)
                      (mapping !! SimpleFinTransaction.payee t) in
  if truthy (SimpleFinTransaction.category t)
  then SimpleFinTransaction.category t
  else if truthy (Category.category rule) then Category.category rule
       else SimpleFinTransaction.category t.
Proof.
  unfold categorize_transaction. cbv zeta.
  generalize (default (Category.mk None None)
                (mapping !! SimpleFinTransaction.payee t)).
  intros [c n]. simpl.
  destruct (truthy (SimpleFinTransaction.category t)), (truthy c), (truthy n);
    reflexivity.
Qed.

Lemma categorize_transaction_payee mapping t :
  SimpleFinTransaction.payee (categorize_transaction mapping t) =
  let rule := default (Category.mk None None)
                      (mapping !! SimpleFinTransaction.payee t) in
  if truthy (Category.name rule) then default "" (Category.name rule)
  else SimpleFinTransaction.payee t.
Proof.
  unfold categorize_transaction. cbv zeta.
  generalize (default (Category.mk None None)
                (mapping !! SimpleFinTransaction.payee t)).
  intros [c n]. simpl.
  destruct (truthy (SimpleFinTransaction.category t)), (truthy c), (truthy n);
    reflexivity.
Qed.

(** A category that is set survives a visit. *)
Lemma categorize_transaction_keeps mapping t :
  truthy (SimpleFinTransaction.category t) = true →
  SimpleFinTransaction.category (categorize_transaction mapping t) =
  SimpleFinTransaction.category t.
Proof.
  intros H. rewrite categorize_transaction_category. simpl. by rewrite H.
Qed.

(** A row of the lookup sheet as a rule; cells the row does not have are
    unset, empty cells are empty strings. *)
Example from_row_example :
  Category.from_row ["ACME CORP"; "Groceries"; "Acme"]
    = Category.mk (Some "Groceries") (Some "Acme")
  ∧ Category.from_row ["ACME CORP"; ""] = Category.mk (Some "") None
  ∧ Category.from_row ["ACME CORP"] = Category.mk None None.
Proof. done. Qed.

(** C3: [categorize_transactions] leaves a category that is set (as after a
    receipt match) as it is, however often the object is visited; where the
    list names every object once, the category changes only for a
    transaction that had none (unset or empty) and whose payee has a rule
    with a category, and it then is that category. *)
Theorem categorize_transactions_category transactions mapping (σ : heap) r t :
  σ !! r = Some t →
  ∃ t', categorize_transactions transactions mapping σ !! r = Some t'
    ∧ (truthy (SimpleFinTransaction.category t) = true →
       SimpleFinTransaction.category t' = SimpleFinTransaction.category t)
    ∧ (NoDup transactions →
       SimpleFinTransaction.category t' ≠ SimpleFinTransaction.category t →
       truthy (SimpleFinTransaction.category t) = false
       ∧ ∃ rule, mapping !! SimpleFinTransaction.payee t = Some rule
           ∧ truthy (Category.category rule) = true
           ∧ SimpleFinTransaction.category t' = Category.category rule).
Proof.
  intros Ht. unfold categorize_transactions.
  destruct (alter_all_rel (categorize_transaction mapping)
              (λ x y, truthy (SimpleFinTransaction.category x) = true →
                      SimpleFinTransaction.category y =
                      SimpleFinTransaction.category x)
              σ transactions r t) as (t' & Ht' & Hkeep); [done| |done|].
  { intros x y Hxy Hx. rewrite <- (Hxy Hx).
    apply categorize_transaction_keeps. rewrite (Hxy Hx). exact Hx. }
  exists t'. split; [exact Ht'|]. split; [exact Hkeep|].
  intros Hnd Hchanged.
  destruct (decide (r ∈ transactions)) as [Hr|Hr].
  - rewrite alter_all_NoDup, Ht in Ht' by done. injection Ht' as <-.
    rewrite categorize_transaction_category in Hchanged |- *. simpl in *.
    destruct (truthy (SimpleFinTransaction.category t)); [done|].
    split; [done|].
    destruct (mapping !! SimpleFinTransaction.payee t) as [rule|];
      simpl in *; [|done].
    destruct (truthy (Category.category rule)) eqn:Hrule; [|done].
    by exists rule.
  - rewrite alter_all_not_elem, Ht in Ht' by done. by injection Ht' as <-.
Qed.

Lemma categorize_transactions_category_witness :
  sample_heap !! 0%nat = Some transaction_0310
  ∧ ∃ t', categorize_transactions [0%nat; 2%nat] acme_mapping sample_heap
            !! 0%nat = Some t'
    ∧ (truthy (SimpleFinTransaction.category transaction_0310) = true →
       SimpleFinTransaction.category t' =
       SimpleFinTransaction.category transaction_0310)
    ∧ (NoDup [0%nat; 2%nat] →
       SimpleFinTransaction.category t' ≠
       SimpleFinTransaction.category transaction_0310 →
       truthy (SimpleFinTransaction.category transaction_0310) = false
       ∧ ∃ rule,
           acme_mapping !! SimpleFinTransaction.payee transaction_0310
           = Some rule
           ∧ truthy (Category.category rule) = true
           ∧ SimpleFinTransaction.category t' = Category.category rule).
Proof.
  assert (sample_heap !! 0%nat = Some transaction_0310) as H by by vm_compute.
  split; [exact H|].
  exact (categorize_transactions_category [0%nat; 2%nat] acme_mapping
           sample_heap 0%nat transaction_0310 H).
Defined.

(** C4: for a list that names every object once, a transaction whose payee
    has a rule with a display name ends with that name as its payee, whether
    or not it has or gets a category; the category is decided on the same
    rule, the one of the payee as fetched. *)
Theorem categorize_transactions_payee transactions mapping (σ : heap)
    r t rule name :
  NoDup transactions → r ∈ transactions → σ !! r = Some t →
  mapping !! SimpleFinTransaction.payee t = Some rule →
  Category.name rule = Some name → name ≠ "" →
  ∃ t', categorize_transactions transactions mapping σ !! r = Some t'
    ∧ SimpleFinTransaction.payee t' = name
    ∧ SimpleFinTransaction.category t' =
      if truthy (SimpleFinTransaction.category t)
      then SimpleFinTransaction.category t
      else if truthy (Category.category rule) then Category.category rule
           else SimpleFinTransaction.category t.
Proof.
  intros Hnd Hr Ht Hrule Hname Hne.
  exists (categorize_transaction mapping t). split.
  - unfold categorize_transactions. by rewrite alter_all_NoDup, Ht.
  - rewrite categorize_transaction_payee, categorize_transaction_category.
    rewrite Hrule. simpl. rewrite Hname. simpl.
    apply String.eqb_neq in Hne. by rewrite Hne.
Qed.

Lemma categorize_transactions_payee_witness :
  NoDup [0%nat]
  ∧ 0%nat ∈ [0%nat]
  ∧ sample_heap !! 0%nat = Some transaction_0310
  ∧ acme_mapping !! "ACME CORP" = Some (Category.mk (Some "Groceries") (Some "Acme"))
  ∧ "Acme" ≠ ""
  ∧ ∃ t', categorize_transactions [0%nat] acme_mapping sample_heap !! 0%nat
          = Some t'
    ∧ SimpleFinTransaction.payee t' = "Acme"
    ∧ SimpleFinTransaction.category t' = Some "Groceries".
Proof.
  assert (NoDup [0%nat]) as Hnd by (apply NoDup_singleton).
  assert (0%nat ∈ [0%nat]) as Hin by (apply list_elem_of_here).
  assert (sample_heap !! 0%nat = Some transaction_0310) as Ht by by vm_compute.
  assert (acme_mapping !! SimpleFinTransaction.payee transaction_0310
          = Some (Category.mk (Some "Groceries") (Some "Acme"))) as Hrule
    by by vm_compute.
  assert ("Acme" ≠ "") as Hne by discriminate.
  repeat (split; [assumption|]).
  exact (categorize_transactions_payee [0%nat] acme_mapping sample_heap 0%nat
           transaction_0310 _ "Acme" Hnd Hin Ht Hrule eq_refl Hne).
Defined.

(** An object that the list names twice is visited twice, and the second
    visit looks up the payee the first one wrote. *)
Example categorize_transactions_listed_twice :
  let mapping : gmap string Category.t :=
    {[ "ACME CORP" := Category.mk None (Some "Acme");
       "Acme" := Category.mk (Some "Groceries") (Some "Acme Ltd") ]} in
  (λ t, (SimpleFinTransaction.payee t, SimpleFinTransaction.category t))
    <$> categorize_transactions [0%nat; 0%nat] mapping sample_heap !! 0%nat
  = Some ("Acme Ltd", Some "Groceries").
Proof. by vm_compute. Qed.

(** ** convert_to_row *)

Lemma doy_of_doe_bounds doe :
  0 ≤ doe < 146097 →
  0 ≤ (doy_of_doe doe).1 < 400 ∧ 0 ≤ (doy_of_doe doe).2 ≤ 365.
Proof.
  intros H. unfold doy_of_doe. cbn [fst snd].
  Z.div_mod_to_equations; lia.
Qed.

(** The calendar date of a day number has a month from 1 to 12 and a day from
    1 to 31. *)
Lemma civil_from_days_bounds z y m d :
  civil_from_days z = (y, m, d) → 1 ≤ m ≤ 12 ∧ 1 ≤ d ≤ 31.
Proof.
  unfold civil_from_days.
  set (doe := z + 719468 - (z + 719468) / 146097 * 146097).
  assert (0 ≤ doe < 146097) as Hdoe
    by (subst doe; Z.div_mod_to_equations; lia).
  pose proof (doy_of_doe_bounds doe Hdoe) as [Hy Hd].
  destruct (doy_of_doe doe) as [yoe doy]. cbn [fst snd] in *.
  intros [= <- <- <-].
  destruct (_ <? 10) eqn:E; [apply Z.ltb_lt in E|apply Z.ltb_ge in E];
    Z.div_mod_to_equations; lia.
Qed.

(** It is the date whose day number was given. *)
Lemma days_from_civil_from_days z y m d :
  civil_from_days z = (y, m, d) → days_from_civil y m d = z.
Proof.
  unfold civil_from_days.
  set (era := (z + 719468) / 146097).
  set (doe := z + 719468 - era * 146097).
  assert (0 ≤ doe < 146097) as Hdoe
    by (subst doe era; Z.div_mod_to_equations; lia).
  pose proof (doy_of_doe_bounds doe Hdoe) as [Hy Hd].
  unfold doy_of_doe in *. cbn [fst snd] in *.
  set (yoe := (doe - doe / 1460 + doe / 36524 - doe / 146096) / 365) in *.
  set (doy := doe - (365 * yoe + yoe / 4 - yoe / 100)) in *.
  intros [= <- <- <-]. unfold days_from_civil.
  set (mp := (5 * doy + 2) / 153).
  assert (0 ≤ mp ≤ 11) as Hmp by (subst mp; Z.div_mod_to_equations; lia).
  destruct (mp <? 10) eqn:E; [apply Z.ltb_lt in E|apply Z.ltb_ge in E].
  - replace (mp + 3 <=? 2) with false by (symmetry; apply Z.leb_gt; lia).
    replace (2 <? mp + 3) with true by (symmetry; apply Z.ltb_lt; lia).
    replace (mp + 3 - 3) with mp by lia.
    replace ((yoe + era * 400) / 400) with era
      by (Z.div_mod_to_equations; lia).
    replace (yoe + era * 400 - era * 400) with yoe by lia.
    subst doy doe. lia.
  - replace (mp - 9 <=? 2) with true by (symmetry; apply Z.leb_le; lia).
    replace (2 <? mp - 9) with false by (symmetry; apply Z.ltb_ge; lia).
    replace (mp - 9 + 9) with mp by lia.
    replace (yoe + era * 400 + 1 - 1) with (yoe + era * 400) by lia.
    replace ((yoe + era * 400) / 400) with era
      by (Z.div_mod_to_equations; lia).
    replace (yoe + era * 400 - era * 400) with yoe by lia.
    subst doy doe. lia.
Qed.

(** Months and days print without a leading zero. *)
Lemma pretty_no_leading_zero (n : Z) :
  1 ≤ n ≤ 31 → leading_zero (pretty n) = false.
Proof.
  intros Hn.
  assert (∃ k : nat, (k < 31)%nat ∧ n = Z.of_nat k + 1) as (k & Hk & ->)
    by (exists (Z.to_nat (n - 1)); lia).
  do 31 (destruct k as [|k]; [by vm_compute|]). lia.
Qed.

Lemma all_from_spec f start n z :
  all_from f start n = true → start ≤ z < start + Z.of_nat n → f z = true.
Proof.
  revert start. induction n as [|n IH]; intros start; simpl; [lia|].
  intros [Hf Hrest]%andb_true_iff Hz.
  destruct (decide (z = start)) as [->|Hne]; [done|].
  apply (IH (start + 1)); [done|lia].
Qed.

(** Years from 1000 to 9999 print with four digits. *)
Lemma pretty_year_length (y : Z) :
  1000 ≤ y ≤ 9999 → String.length (pretty y) = 4%nat.
Proof.
  intros Hy. apply Nat.eqb_eq.
  apply (all_from_spec (λ y, String.length (pretty y) =? 4)%nat 1000
                       (Z.to_nat 9000)).
  - by vm_compute.
  - rewrite Z2Nat.id; lia.
Qed.


(** The float of the example is the double nearest to -12.34: its
    significand has 53 bits and differs from 12.34 * 2^49 by at most one
    half. *)
Example float_of_minus_12_34_nearest :
  2 * Z.abs (100 * 6946802425218990 - 1234 * 2 ^ 49) ≤ 100
  ∧ 2 ^ 52 ≤ 6946802425218990 < 2 ^ 53.
Proof. split; [by vm_compute | lia]. Qed.

(** A transaction of 1 March 2024 with amount -12.34, a category and no
    receipt, as a row. *)
Example convert_to_row_example :
  convert_to_row transaction_t3 =
  [ CStr "t3"; CStr "CORNER SHOP";
    CFloat (S754_finite true 6946802425218990 (-49));
    CStr "3/1/2024"; CStr "Household"; CStr "" ].
Proof. by vm_compute. Qed.

Example convert_to_row_receipt_example :
  convert_to_row transaction_0310_attached =
  [ CStr "t1"; CStr "ACME CORP";
    CFloat (S754_finite true 5981343255101440 (-47));
    CStr "3/10/2024"; CStr "Dining";
    CStr "https://paperless.markis.network/documents/1/" ].
Proof. by vm_compute. Qed.

(** ** insert_records_to_google_sheet *)

Lemma row_id_convert_to_row t :
  row_id (convert_to_row t) = Some (SimpleFinTransaction.id t).
Proof. reflexivity. Qed.

(** The ids of the rows the comprehension builds, for any set of ids. *)
Lemma new_records_ids (current_ids : gset string) transactions :
  row_ids (new_records current_ids transactions) =
  filter (λ i, i ∉ current_ids) (SimpleFinTransaction.id <$> transactions).
Proof.
  unfold row_ids, new_records.
  induction transactions as [|t transactions IH]; [done|].
  rewrite fmap_cons.
  destruct (decide (SimpleFinTransaction.id t ∈ current_ids)) as [Hin|Hnotin].
  - rewrite !filter_cons_False by (intros H; by apply H). exact IH.
  - rewrite !filter_cons_True by done. rewrite fmap_cons.
    change (SimpleFinTransaction.id t ::
              omap row_id
                (convert_to_row <$>
                   filter (λ t, SimpleFinTransaction.id t ∉ current_ids)
                          transactions)
            = SimpleFinTransaction.id t ::
              filter (λ i, i ∉ current_ids)
                     (SimpleFinTransaction.id <$> transactions)).
    by rewrite IH.
Qed.

Lemma elem_of_new_records (current_ids : gset string) transactions t :
  t ∈ transactions →
  convert_to_row t ∈ new_records current_ids transactions
  ↔ SimpleFinTransaction.id t ∉ current_ids.
Proof.
  intros Ht. unfold new_records. rewrite list_elem_of_fmap. split.
  - intros (t' & Heq & Ht'). apply list_elem_of_filter in Ht' as [Hnew _].
    assert (row_id (convert_to_row t) = row_id (convert_to_row t')) as Hid
      by by rewrite Heq.
    rewrite !row_id_convert_to_row in Hid. injection Hid as ->. exact Hnew.
  - intros Hnew. exists t. split; [done|]. by apply list_elem_of_filter.
Qed.

(** Reading the id column succeeds on rows that all have a first cell, and
    gives the set of those cells. *)
Lemma first_column_Ok values :
  Forall (λ row, row ≠ []) values →
  ∃ ids, first_column values = Ok ids
    ∧ ∀ x, x ∈ ids ↔ ∃ row, row ∈ values ∧ head row = Some x.
Proof.
  induction 1 as [|row values Hrow _ (ids & Hids & Hmem)].
  - exists ∅. split; [done|]. intros x. split; [set_solver|].
    intros (row & Hin & _). by apply elem_of_nil in Hin.
  - destruct row as [|x0 row]; [done|]. simpl. rewrite Hids.
    exists ({[x0]} ∪ ids). split; [done|]. intros x.
    rewrite elem_of_union, elem_of_singleton, Hmem. split.
    + intros [->|(row' & Hin & Hhead)].
      * exists (x0 :: row). split; [by left|done].
      * exists row'. split; [by right|done].
    + intros (row' & Hin & Hhead). apply elem_of_cons in Hin as [->|Hin].
      * left. simpl in Hhead. by injection Hhead.
      * right. by exists row'.
Qed.

(** C6, as amended: on a sheet the writer accepts - at least one row, and
    every row with a first cell - the writer hands over for appending one
    row per transaction whose id is not in the id column, in order, and no
    other row. *)
Theorem insert_records_emits_new values transactions :
  values ≠ [] → Forall (λ row, row ≠ []) values →
  ∃ (current_ids : gset string) records,
    (∀ x, x ∈ current_ids ↔ ∃ row, row ∈ values ∧ head row = Some x)
    ∧ insert_records_to_google_sheet values transactions = Ok records
    ∧ records =
      convert_to_row <$>
        filter (λ t, SimpleFinTransaction.id t ∉ current_ids) transactions
    ∧ row_ids records =
      filter (λ i, i ∉ current_ids) (SimpleFinTransaction.id <$> transactions)
    ∧ ∀ t, t ∈ transactions →
        convert_to_row t ∈ records ↔ SimpleFinTransaction.id t ∉ current_ids.
Proof.
  intros Hne Hrows.
  destruct (first_column_Ok values Hrows) as (ids & Hids & Hmem).
  exists ids, (new_records ids transactions).
  split; [exact Hmem|]. split.
  - unfold insert_records_to_google_sheet. rewrite Hids.
    by destruct values.
  - split; [reflexivity|]. split; [apply new_records_ids|].
    intros t. apply elem_of_new_records.
Qed.

Lemma insert_records_emits_new_witness :
  let values := [["t1"; "ACME CORP"; "-42.5"]; ["t2"; "ACME CORP"; "0"]] in
  let transactions := [transaction_0310; transaction_t3] in
  values ≠ []
  ∧ Forall (λ row, row ≠ []) values
  ∧ insert_records_to_google_sheet values transactions
    = Ok [convert_to_row transaction_t3]
  ∧ ∃ (current_ids : gset string) records,
      (∀ x, x ∈ current_ids ↔ ∃ row, row ∈ values ∧ head row = Some x)
      ∧ insert_records_to_google_sheet values transactions = Ok records
      ∧ records =
        convert_to_row <$>
          filter (λ t, SimpleFinTransaction.id t ∉ current_ids) transactions
      ∧ row_ids records =
        filter (λ i, i ∉ current_ids)
               (SimpleFinTransaction.id <$> transactions)
      ∧ ∀ t, t ∈ transactions →
          convert_to_row t ∈ records
          ↔ SimpleFinTransaction.id t ∉ current_ids.
Proof.
  intros values transactions.
  assert (values ≠ []) as Hne by discriminate.
  assert (Forall (λ row, row ≠ []) values) as Hrows
    by (repeat constructor; discriminate).
  split; [exact Hne|]. split; [exact Hrows|]. split; [by vm_compute|].
  exact (insert_records_emits_new values transactions Hne Hrows).
Defined.

(** C6 as worded, for every set of existing ids, fails on the sheet without
    rows: there no id exists, so the id of [transaction_t3] is new, yet the
    writer stops at its assertion [is_list_of_strings(values)] and hands
    over no row; and a sheet of one row without cells stops it at
    [row[0]]. *)
Lemma insert_records_emits_new_counterexample :
  (∀ x, ¬ ∃ row : list string, row ∈ ([] : list (list string))
                                ∧ head row = Some x)
  ∧ insert_records_to_google_sheet [] [transaction_t3] = Raise AssertionError
  ∧ insert_records_to_google_sheet [[]] [transaction_t3] = Raise IndexError
  ∧ ¬ ∃ (current_ids : gset string) records,
        (∀ x, x ∈ current_ids
              ↔ ∃ row, row ∈ ([] : list (list string)) ∧ head row = Some x)
        ∧ insert_records_to_google_sheet [] [transaction_t3] = Ok records
        ∧ ∀ t, t ∈ [transaction_t3] →
            convert_to_row t ∈ records
            ↔ SimpleFinTransaction.id t ∉ current_ids.
Proof.
  split; [|split; [reflexivity|split; [reflexivity|]]].
  - intros x (row & Hrow & _). by apply elem_of_nil in Hrow.
  - intros (current_ids & records & _ & Hraise & _). discriminate Hraise.
Qed.

(** An empty sheet stops the writer at its assertion, and a row without
    cells at the id column, whatever the transactions. *)
Example insert_records_empty_sheet transactions :
  insert_records_to_google_sheet [] transactions = Raise AssertionError
  ∧ insert_records_to_google_sheet [[]] transactions = Raise IndexError.
Proof. done. Qed.

Lemma filter_nil_Forall {A} (P : A → Prop) `{∀ x, Decision (P x)} l :
  Forall (λ x, ¬ P x) l → filter P l = [].
Proof.
  induction 1 as [|x l Hx _ IH]; [done|]. by rewrite filter_cons_False.
Qed.

(** Every id is known once the emitted ones are added to the existing. *)
Lemma new_records_known (current_ids : gset string) transactions :
  new_records
    (current_ids ∪ list_to_set (row_ids (new_records current_ids transactions)))
    transactions = [].
Proof.
  rewrite new_records_ids. unfold new_records.
  rewrite filter_nil_Forall; [done|].
  apply Forall_forall. intros t Ht Hnew. apply Hnew.
  destruct (decide (SimpleFinTransaction.id t ∈ current_ids)) as [Hin|Hnotin].
  - set_solver.
  - apply elem_of_union_r, elem_of_list_to_set, list_elem_of_filter.
    split; [done|]. by apply list_elem_of_fmap_2.
Qed.

Lemma first_column_app values1 values2 ids1 ids2 :
  first_column values1 = Ok ids1 → first_column values2 = Ok ids2 →
  first_column (values1 ++ values2) = Ok (ids1 ∪ ids2).
Proof.
  revert ids1. induction values1 as [|row values1 IH]; intros ids1; simpl.
  - intros [= <-] ->. f_equal. by rewrite (left_id_L ∅ (∪)).
  - destruct row as [|x row]; [done|].
    destruct (first_column values1) as [ids|]; [|done].
    intros [= <-] H2. rewrite (IH ids eq_refl H2). f_equal.
    by rewrite (assoc_L (∪)).
Qed.

Lemma first_column_appended (appended : list (list string)) records :
  Forall2 (λ row cells, head row = row_id cells ∧ row ≠ []) appended records →
  first_column appended = Ok (list_to_set (row_ids records)).
Proof.
  induction 1 as [|row cells appended records [Hhead Hrow] _ IH]; [done|].
  destruct row as [|x row]; [done|]. simpl in *. rewrite IH.
  unfold row_ids. simpl. by rewrite <- Hhead.
Qed.

(** The same on the sheet: when the rows of the first run are in the sheet,
    their first cell the id, the second run has nothing to append. *)
Lemma insert_records_second_run values transactions records appended :
  insert_records_to_google_sheet values transactions = Ok records →
  Forall2 (λ row cells, head row = row_id cells ∧ row ≠ []) appended records →
  insert_records_to_google_sheet (values ++ appended) transactions = Ok [].
Proof.
  unfold insert_records_to_google_sheet. intros Hfirst Happ.
  destruct values as [|row values]; [done|].
  destruct (first_column (row :: values)) as [ids|] eqn:Hids; [|done].
  injection Hfirst as <-.
  rewrite (first_column_app _ _ _ _ Hids (first_column_appended _ _ Happ)).
  simpl. f_equal. apply new_records_known.
Qed.

(** The whole pipeline on unchanged upstream data: with the rows of the
    first run in the sheet, the second run appends nothing. *)
Lemma pipeline_second_run mapping documents accounts (σ : heap) values
    records appended :
  pipeline mapping documents accounts σ values = Ok records →
  Forall2 (λ row cells, head row = row_id cells ∧ row ≠ []) appended records →
  pipeline mapping documents accounts σ (values ++ appended) = Ok [].
Proof.
  unfold pipeline. destruct (attach_receipts accounts documents σ) as [ts σ1].
  apply insert_records_second_run.
Qed.

(** C7: a second run over the same transactions, with the ids of the rows
    the first run emitted added to the existing ids, emits no row. *)
Theorem second_run_emits_nothing (current_ids : gset string) transactions :
  let emitted := new_records current_ids transactions in
  new_records (current_ids ∪ list_to_set (row_ids emitted)) transactions = [].
Proof. apply new_records_known. Qed.

(** The two runs on the sample sheet: the first appends the row of [t3], the
    second, with that row in the sheet, appends nothing. *)
Example two_runs_example :
  let values := [["t1"; "ACME CORP"; "-42.5"]; ["t2"; "ACME CORP"; "0"]] in
  let transactions := [transaction_0310; transaction_t3] in
  insert_records_to_google_sheet values transactions
    = Ok [convert_to_row transaction_t3]
  ∧ insert_records_to_google_sheet
      (values ++ [["t3"; "CORNER SHOP"; "-12.34"; "3/1/2024"; "Household"; ""]])
      transactions = Ok [].
Proof. by vm_compute. Qed.

(** ** Args and run *)

Lemma group_absent_any fields :
  group_absent fields ↔ Args.any fields = false.
Proof.
  unfold group_absent, Args.any. induction fields as [|f fields IH]; simpl.
  - split; [done|constructor].
  - rewrite Forall_cons, IH, orb_false_iff. done.
Qed.

Lemma errors_nil a : Args.errors a = [] ↔ ¬ some_group_absent a.
Proof.
  unfold some_group_absent, Args.errors. rewrite !group_absent_any.
  destruct (Args.any [Args.simplefin_username a; _; _]),
           (Args.any [Args.paperless_url a; _]),
           (Args.any [Args.google_credentials a; _]); simpl;
    intuition congruence.
Qed.

(** C8: with a credential group absent, constructing [Args] raises
    [Args.Error], and [run] logs the message and ends without a request to
    any remote system, whatever [main] would do; with no group absent the
    construction succeeds with the fields as given. *)
Theorem args_validation (main : Args.t → list event * outcome unit)
    (fields : Args.t) :
  (some_group_absent fields →
   ∃ msg, Args.init fields = Raise (ArgsError msg)
     ∧ run main fields = [LogInfo "Starting..."; LogError msg]
     ∧ existsb is_request (run main fields) = false)
  ∧ (¬ some_group_absent fields → Args.init fields = Ok fields).
Proof.
  unfold run, Args.init, Args.post_init. split.
  - intros Habsent.
    destruct (Args.errors fields) as [|e errs] eqn:Herrs.
    + apply errors_nil in Herrs. done.
    + eexists. split; [reflexivity|]. split; reflexivity.
  - intros Hpresent. apply errors_nil in Hpresent. by rewrite Hpresent.
Qed.

(** The two cases on sample arguments: all groups given, and the Paperless
    group absent (no URL, an empty token) while [main] would contact all
    three systems. *)
Example args_validation_example :
  let main (_ : Args.t) :=
    ([Request GoogleSheets; Request Paperless; Request SimpleFin;
      Request GoogleSheets], Ok tt) in
  Args.init sample_args = Ok sample_args
  ∧ run main sample_args =
    [LogInfo "Starting..."; Request GoogleSheets; Request Paperless;
     Request SimpleFin; Request GoogleSheets; LogInfo "Done"]
  ∧ Args.init sample_args_no_paperless =
    Raise (ArgsError ("Missing CLI Args " +:+ newline
                      +:+ "Paperless credentials are required"))
  ∧ existsb is_request (run main sample_args_no_paperless) = false.
Proof. by vm_compute. Qed.

(** A group counts as given as soon as one of its fields is: a user name
    without password and URL passes the validation. *)
Example args_partial_group :
  Args.init (Args.mk (Some "user") None None (Some "http://paperless.example")
                     None None (Some "sheet-id") None None)
  = Ok (Args.mk (Some "user") None None (Some "http://paperless.example")
                None None (Some "sheet-id") None None).
Proof. reflexivity. Qed.

(** * Further properties of the pipeline *)

(** ** attach_receipts: which receipt, and what else changes *)

(** The head of an ascending stable sort is the leftmost least element. *)
Lemma head_sorted_leftmost {A} (key : A → Z) l x :
  head (sorted key false l) = Some x →
  ∃ l1 l2, l = l1 ++ x :: l2
    ∧ Forall (λ y, key x < key y) l1
    ∧ Forall (λ y, key x ≤ key y) l2.
Proof.
  revert x. induction l as [|a l IH]; intros x; [done|].
  rewrite head_sorted_cons.
  destruct (head (sorted key false l)) as [m|] eqn:Hm.
  - destruct (key_le key false a m) eqn:Hle.
    + intros [= <-]. exists [], l. split; [done|]. split; [constructor|].
      apply key_le_rel in Hle. simpl in Hle.
      apply head_sorted_first in Hm as [_ Hm].
      apply Forall_forall. intros y Hy. specialize (Hm y Hy). simpl in Hm.
      lia.
    + intros [= <-]. destruct (IH m eq_refl) as (l1 & l2 & -> & H1 & H2).
      exists (a :: l1), l2. split; [done|]. split; [|done].
      constructor; [|done]. unfold key_le in Hle. apply Z.leb_gt in Hle. lia.
  - apply head_sorted_None in Hm as ->. intros [= <-].
    exists [], []. repeat split; constructor.
Qed.

(** X1: the receipt [attach_receipts] attaches is, among the candidates for
    the amount (total set, not zero, equal to the amount), one with the
    latest date, and of several with that date the one supplied first. *)
Theorem attach_receipts_first_of_latest accounts receipts σ r t d :
  r ∈ (attach_receipts accounts receipts σ).1 →
  (attach_receipts accounts receipts σ).2 !! r = Some t →
  SimpleFinTransaction.receipt t = Some d →
  ∃ before after,
    filter (λ x, candidate (SimpleFinTransaction.amount t) x = true) receipts
      = before ++ d :: after
    ∧ Forall (λ x, Document.date x < Document.date d) before
    ∧ Forall (λ x, Document.date x ≤ Document.date d) after.
Proof.
  intros Hr Ht.
  destruct (attach_receipts_lookup _ _ _ _ _ Hr Ht) as (t0 & _ & ->).
  rewrite attach_receipt_receipt, attach_receipt_amount. intros Hd.
  apply head_sorted_leftmost in Hd as (l1 & l2 & Heq & H1 & H2).
  exists l1, l2. split; [exact Heq|].
  split; (eapply Forall_impl; [eassumption|]);
    intros x Hx; cbv beta in Hx; unfold receipt_key in Hx; lia.
Qed.

Lemma attach_receipts_first_of_latest_witness :
  let receipts := [receipt_0309; receipt_0315; receipt_zero;
                   receipt_0315_later] in
  let out := attach_receipts [sample_account [0%nat]] receipts sample_heap in
  ∃ t, 0%nat ∈ out.1
    ∧ out.2 !! 0%nat = Some t
    ∧ SimpleFinTransaction.receipt t = Some receipt_0315
    ∧ ∃ before after,
        filter (λ x, candidate (SimpleFinTransaction.amount t) x = true)
               receipts = before ++ receipt_0315 :: after
        ∧ Forall (λ x, Document.date x < Document.date receipt_0315) before
        ∧ Forall (λ x, Document.date x ≤ Document.date receipt_0315) after.
Proof.
  intros receipts out.
  exists (SimpleFinTransaction.set_receipt (Some receipt_0315)
            (SimpleFinTransaction.set_category (Some "Travel")
               transaction_0310)).
  assert (0%nat ∈ out.1) as Hin
    by (vm_compute; apply list_elem_of_In; simpl; tauto).
  assert (out.2 !! 0%nat
          = Some (SimpleFinTransaction.set_receipt (Some receipt_0315)
                    (SimpleFinTransaction.set_category (Some "Travel")
                       transaction_0310))) as Hlook by by vm_compute.
  split; [exact Hin|]. split; [exact Hlook|]. split; [reflexivity|].
  exact (attach_receipts_first_of_latest _ _ _ _ _ _ Hin Hlook eq_refl).
Defined.

(** X2: a returned transaction is without receipt exactly when no supplied
    receipt has a total that is not zero and equals its amount. *)
Theorem attach_receipts_none_iff accounts receipts σ r t :
  r ∈ (attach_receipts accounts receipts σ).1 →
  (attach_receipts accounts receipts σ).2 !! r = Some t →
  SimpleFinTransaction.receipt t = None
  ↔ ∀ d total, d ∈ receipts → Document.total d = Some total →
      Decimal_eqb total (SimpleFinTransaction.amount t) = true →
      coefficient total = 0.
Proof.
  intros Hr Ht.
  destruct (attach_receipts_lookup _ _ _ _ _ Hr Ht) as (t0 & _ & ->).
  rewrite attach_receipt_receipt, attach_receipt_amount, pick_document_None.
  split.
  - intros Hnil d total Hd Htotal Heq.
    destruct (decide (coefficient total = 0)) as [|Hne]; [done|].
    exfalso. eapply (filter_nil_not_elem_of _ _ d Hnil); [|exact Hd].
    unfold candidate, Decimal_bool. rewrite Htotal, Heq.
    apply Z.eqb_neq in Hne. by rewrite Hne.
  - intros Hnone. apply filter_nil_Forall, Forall_forall. intros d Hd Hc.
    unfold candidate, Decimal_bool in Hc.
    destruct (Document.total d) as [total|] eqn:Htotal; [|done].
    apply andb_true_iff in Hc as [Hnz Heq].
    rewrite (Hnone d total Hd Htotal Heq) in Hnz. done.
Qed.

Lemma attach_receipts_none_iff_witness :
  let receipts := [receipt_0309; receipt_zero] in
  let out := attach_receipts [sample_account [2%nat]] receipts sample_heap in
  2%nat ∈ out.1
  ∧ out.2 !! 2%nat
    = Some (SimpleFinTransaction.set_category None transaction_t3)
  ∧ (SimpleFinTransaction.receipt
       (SimpleFinTransaction.set_category None transaction_t3) = None
     ↔ ∀ d total, d ∈ receipts → Document.total d = Some total →
         Decimal_eqb total
           (SimpleFinTransaction.amount
              (SimpleFinTransaction.set_category None transaction_t3)) = true →
         coefficient total = 0).
Proof.
  intros receipts out.
  assert (2%nat ∈ out.1) as Hin
    by (vm_compute; apply list_elem_of_In; simpl; tauto).
  assert (out.2 !! 2%nat
          = Some (SimpleFinTransaction.set_category None transaction_t3))
    as Hlook by by vm_compute.
  split; [exact Hin|]. split; [exact Hlook|].
  exact (attach_receipts_none_iff _ _ _ _ _ Hin Hlook).
Defined.

(** X3: [attach_receipts] changes nothing of a listed transaction but its
    receipt and its category, and the category it leaves is the one of the
    attached receipt, or none: a category the transaction had before is
    dropped. *)
Theorem attach_receipts_fields accounts receipts (σ : heap) r t0 :
  r ∈ account_refs accounts → σ !! r = Some t0 →
  ∃ t, (attach_receipts accounts receipts σ).2 !! r = Some t
    ∧ SimpleFinTransaction.id t = SimpleFinTransaction.id t0
    ∧ SimpleFinTransaction.amount t = SimpleFinTransaction.amount t0
    ∧ SimpleFinTransaction.description t = SimpleFinTransaction.description t0
    ∧ SimpleFinTransaction.memo t = SimpleFinTransaction.memo t0
    ∧ SimpleFinTransaction.payee t = SimpleFinTransaction.payee t0
    ∧ SimpleFinTransaction.posted t = SimpleFinTransaction.posted t0
    ∧ SimpleFinTransaction.transacted_at t
      = SimpleFinTransaction.transacted_at t0
    ∧ SimpleFinTransaction.category t
      = SimpleFinTransaction.receipt t ≫= Document.category.
Proof.
  intros Hr Ht0. exists (attach_receipt (group_receipts receipts) t0).
  split; [|by repeat split].
  rewrite attach_receipts_spec. simpl.
  rewrite alter_all_idemp by (done || apply attach_receipt_idemp).
  by rewrite Ht0.
Qed.

Lemma attach_receipts_fields_witness :
  let accounts := [sample_account [0%nat]; sample_account [3%nat]] in
  3%nat ∈ account_refs accounts
  ∧ sample_heap4 !! 3%nat = Some transaction_0310_again
  ∧ SimpleFinTransaction.category transaction_0310_again = Some "Stale"
  ∧ ∃ t, (attach_receipts accounts [receipt_zero] sample_heap4).2 !! 3%nat
         = Some t
    ∧ SimpleFinTransaction.id t
      = SimpleFinTransaction.id transaction_0310_again
    ∧ SimpleFinTransaction.amount t
      = SimpleFinTransaction.amount transaction_0310_again
    ∧ SimpleFinTransaction.description t
      = SimpleFinTransaction.description transaction_0310_again
    ∧ SimpleFinTransaction.memo t
      = SimpleFinTransaction.memo transaction_0310_again
    ∧ SimpleFinTransaction.payee t
      = SimpleFinTransaction.payee transaction_0310_again
    ∧ SimpleFinTransaction.posted t
      = SimpleFinTransaction.posted transaction_0310_again
    ∧ SimpleFinTransaction.transacted_at t
      = SimpleFinTransaction.transacted_at transaction_0310_again
    ∧ SimpleFinTransaction.category t
      = SimpleFinTransaction.receipt t ≫= Document.category.
Proof.
  intros accounts.
  assert (3%nat ∈ account_refs accounts) as Hin
    by (vm_compute; apply list_elem_of_In; simpl; tauto).
  assert (sample_heap4 !! 3%nat = Some transaction_0310_again) as Hlook
    by by vm_compute.
  split; [exact Hin|]. split; [exact Hlook|]. split; [reflexivity|].
  exact (attach_receipts_fields accounts [receipt_zero] sample_heap4 3%nat
           transaction_0310_again Hin Hlook).
Defined.

Lemma alter_all_dom {T} (f : T → T) (σ : gmap nat T) refs :
  dom (alter_all f σ refs) = dom σ.
Proof.
  revert σ. induction refs as [|r refs IH]; intros σ; [done|].
  rewrite alter_all_cons, IH. apply dom_alter_L.
Qed.

(** X4: [attach_receipts] creates and removes no transaction object and
    leaves every object that no account lists exactly as it is. *)
Theorem attach_receipts_frame accounts receipts (σ : heap) :
  let out := attach_receipts accounts receipts σ in
  dom out.2 = dom σ
  ∧ ∀ r, r ∉ account_refs accounts → out.2 !! r = σ !! r.
Proof.
  rewrite attach_receipts_spec. simpl. split; [apply alter_all_dom|].
  intros r Hr. by apply alter_all_not_elem.
Qed.

Lemma alter_all_twice {T} (f : T → T) (σ : gmap nat T) refs :
  (∀ x, f (f x) = f x) →
  alter_all f (alter_all f σ refs) refs = alter_all f σ refs.
Proof.
  intros Hf. apply map_eq. intros r.
  destruct (decide (r ∈ refs)) as [Hr|Hr].
  - rewrite !alter_all_idemp by done.
    destruct (σ !! r); simpl; [|done]. by rewrite Hf.
  - by rewrite !alter_all_not_elem.
Qed.

(** X5: attaching the same receipts a second time changes nothing: the list
    and every transaction object are as after the first call. *)
Theorem attach_receipts_twice accounts receipts (σ : heap) :
  attach_receipts accounts receipts (attach_receipts accounts receipts σ).2
  = attach_receipts accounts receipts σ.
Proof.
  rewrite !attach_receipts_spec. cbv zeta. cbn [snd].
  rewrite alter_all_twice by apply attach_receipt_idemp. reflexivity.
Qed.

(** A stable sort keeps the elements of each key in their order. *)
Lemma insort_filter_key {A} (key : A → Z) reverse k x l :
  filter (λ y, key y = k) (insort (key_le key reverse) x l)
  = filter (λ y, key y = k) (x :: l).
Proof.
  induction l as [|y l IH]; simpl; [done|].
  destruct (key_le key reverse x y) eqn:Hle; [done|].
  assert (key x ≠ key y) as Hne.
  { intros Heq. unfold key_le in Hle. rewrite Heq in Hle.
    destruct reverse; apply Z.leb_gt in Hle; lia. }
  rewrite (filter_cons _ y), IH, !(filter_cons _ x), (filter_cons _ y).
  destruct (decide (key x = k)), (decide (key y = k)); congruence.
Qed.

Lemma sorted_filter_key {A} (key : A → Z) reverse k l :
  filter (λ y, key y = k) (sorted key reverse l) = filter (λ y, key y = k) l.
Proof.
  induction l as [|x l IH]; [done|].
  change (sorted key reverse (x :: l))
    with (insort (key_le key reverse) x (sorted key reverse l)).
  rewrite insort_filter_key, !(filter_cons _ x), IH. done.
Qed.

Lemma transacted_at_of_attached g (σ : heap) refs r :
  transacted_at_of (alter_all (attach_receipt g) σ refs) r
  = transacted_at_of σ r.
Proof.
  unfold transacted_at_of. destruct (decide (r ∈ refs)) as [Hr|Hr].
  - rewrite alter_all_idemp by (done || apply attach_receipt_idemp).
    by destruct (σ !! r).
  - by rewrite alter_all_not_elem.
Qed.

(** X6: in the list [attach_receipts] returns, the transactions of one and
    the same [transacted_at] stand in the order of the accounts and of the
    transactions within each account. *)
Theorem attach_receipts_stable accounts receipts (σ : heap) (k : datetime) :
  let out := attach_receipts accounts receipts σ in
  filter (λ r, transacted_at_of out.2 r = k) out.1
  = filter (λ r, transacted_at_of σ r = k) (account_refs accounts).
Proof.
  rewrite attach_receipts_spec. cbv zeta. cbn [fst snd].
  rewrite sorted_filter_key. apply list_filter_iff. intros r.
  by rewrite transacted_at_of_attached.
Qed.

Lemma candidate_congr a a' d :
  Decimal_eqb a a' = true → candidate a d = candidate a' d.
Proof.
  intros Ha. unfold candidate.
  destruct (Document.total d) as [total|]; [|done]. f_equal.
  rewrite !(Decimal_eqb_sym total). by apply Decimal_eqb_congr.
Qed.

(** X7: a receipt is not used up: two returned transactions of equal amount
    whose [transacted_at] fall on the same UTC day carry the same receipt. *)
Theorem attach_receipts_shared accounts receipts σ r1 r2 t1 t2 :
  r1 ∈ (attach_receipts accounts receipts σ).1 →
  r2 ∈ (attach_receipts accounts receipts σ).1 →
  (attach_receipts accounts receipts σ).2 !! r1 = Some t1 →
  (attach_receipts accounts receipts σ).2 !! r2 = Some t2 →
  Decimal_eqb (SimpleFinTransaction.amount t1)
              (SimpleFinTransaction.amount t2) = true →
  datetime_date (SimpleFinTransaction.transacted_at t1)
  = datetime_date (SimpleFinTransaction.transacted_at t2) →
  SimpleFinTransaction.receipt t1 = SimpleFinTransaction.receipt t2.
Proof.
  intros Hr1 Hr2 Ht1 Ht2.
  destruct (attach_receipts_lookup _ _ _ _ _ Hr1 Ht1) as (u1 & _ & ->).
  destruct (attach_receipts_lookup _ _ _ _ _ Hr2 Ht2) as (u2 & _ & ->).
  rewrite !attach_receipt_receipt, !attach_receipt_amount.
  change (SimpleFinTransaction.transacted_at (attach_receipt _ u1))
    with (SimpleFinTransaction.transacted_at u1).
  change (SimpleFinTransaction.transacted_at (attach_receipt _ u2))
    with (SimpleFinTransaction.transacted_at u2).
  intros Hamount Hday.
  rewrite (list_filter_iff
             (λ x, candidate (SimpleFinTransaction.amount u1) x = true)
             (λ x, candidate (SimpleFinTransaction.amount u2) x = true))
    by (intros x; by rewrite (candidate_congr _ _ x Hamount)).
  unfold pick_document. f_equal. apply sorted_ext.
  apply Forall_forall. intros d _. unfold receipt_key. by rewrite Hday.
Qed.

Lemma attach_receipts_shared_witness :
  let accounts := [sample_account [0%nat]; sample_account [3%nat]] in
  let out := attach_receipts accounts [receipt_0315_later; receipt_0309]
                             sample_heap4 in
  ∃ t1 t2,
    0%nat ∈ out.1 ∧ 3%nat ∈ out.1
    ∧ out.2 !! 0%nat = Some t1 ∧ out.2 !! 3%nat = Some t2
    ∧ Decimal_eqb (SimpleFinTransaction.amount t1)
                  (SimpleFinTransaction.amount t2) = true
    ∧ datetime_date (SimpleFinTransaction.transacted_at t1)
      = datetime_date (SimpleFinTransaction.transacted_at t2)
    ∧ SimpleFinTransaction.receipt t1 = Some receipt_0315_later
    ∧ SimpleFinTransaction.receipt t1 = SimpleFinTransaction.receipt t2.
Proof.
  intros accounts out.
  exists (SimpleFinTransaction.set_receipt (Some receipt_0315_later)
            (SimpleFinTransaction.set_category None transaction_0310)),
         (SimpleFinTransaction.set_receipt (Some receipt_0315_later)
            (SimpleFinTransaction.set_category None transaction_0310_again)).
  assert (0%nat ∈ out.1) as Hin1
    by (vm_compute; apply list_elem_of_In; simpl; tauto).
  assert (3%nat ∈ out.1) as Hin2
    by (vm_compute; apply list_elem_of_In; simpl; tauto).
  assert (out.2 !! 0%nat
          = Some (SimpleFinTransaction.set_receipt (Some receipt_0315_later)
                    (SimpleFinTransaction.set_category None
                       transaction_0310))) as H1 by by vm_compute.
  assert (out.2 !! 3%nat
          = Some (SimpleFinTransaction.set_receipt (Some receipt_0315_later)
                    (SimpleFinTransaction.set_category None
                       transaction_0310_again))) as H2 by by vm_compute.
  assert (Decimal_eqb (mkDecimal (-4250) (-2)) (mkDecimal (-425) (-1)) = true)
    as Hamount by by vm_compute.
  assert (datetime_date (noon 2024 3 10)
          = datetime_date (noon 2024 3 10 + 3600)) as Hday by by vm_compute.
  repeat (split; [assumption || reflexivity|]).
  exact (attach_receipts_shared _ _ _ _ _ _ _ Hin1 Hin2 H1 H2 Hamount Hday).
Defined.

(** ** categorize_transactions: what it leaves alone *)

Lemma categorize_transaction_fields mapping t :
  let t' := categorize_transaction mapping t in
  SimpleFinTransaction.id t' = SimpleFinTransaction.id t
  ∧ SimpleFinTransaction.amount t' = SimpleFinTransaction.amount t
  ∧ SimpleFinTransaction.description t' = SimpleFinTransaction.description t
  ∧ SimpleFinTransaction.memo t' = SimpleFinTransaction.memo t
  ∧ SimpleFinTransaction.posted t' = SimpleFinTransaction.posted t
  ∧ SimpleFinTransaction.transacted_at t'
    = SimpleFinTransaction.transacted_at t
  ∧ SimpleFinTransaction.receipt t' = SimpleFinTransaction.receipt t.
Proof.
  unfold categorize_transaction. cbv zeta.
  generalize (default (Category.mk None None)
                (mapping !! SimpleFinTransaction.payee t)).
  intros [c n]. simpl.
  destruct (truthy (SimpleFinTransaction.category t)), (truthy c), (truthy n);
    by repeat split.
Qed.

(** X8: [categorize_transactions] creates and removes no object, leaves
    unlisted objects as they are, and of a listed transaction changes at
    most the category and the payee, however often the list names it: id,
    amount, description, memo, time stamps and receipt stay. *)
Theorem categorize_transactions_frame transactions mapping (σ : heap) :
  let σ' := categorize_transactions transactions mapping σ in
  dom σ' = dom σ
  ∧ (∀ r, r ∉ transactions → σ' !! r = σ !! r)
  ∧ ∀ r t, σ !! r = Some t →
      ∃ t', σ' !! r = Some t'
        ∧ SimpleFinTransaction.id t' = SimpleFinTransaction.id t
        ∧ SimpleFinTransaction.amount t' = SimpleFinTransaction.amount t
        ∧ SimpleFinTransaction.description t'
          = SimpleFinTransaction.description t
        ∧ SimpleFinTransaction.memo t' = SimpleFinTransaction.memo t
        ∧ SimpleFinTransaction.posted t' = SimpleFinTransaction.posted t
        ∧ SimpleFinTransaction.transacted_at t'
          = SimpleFinTransaction.transacted_at t
        ∧ SimpleFinTransaction.receipt t' = SimpleFinTransaction.receipt t.
Proof.
  unfold categorize_transactions. cbv zeta.
  split; [apply alter_all_dom|]. split.
  - intros r Hr. by apply alter_all_not_elem.
  - intros r t Ht.
    apply (alter_all_rel (categorize_transaction mapping)
             (λ x y,
                SimpleFinTransaction.id y = SimpleFinTransaction.id x
                ∧ SimpleFinTransaction.amount y = SimpleFinTransaction.amount x
                ∧ SimpleFinTransaction.description y
                  = SimpleFinTransaction.description x
                ∧ SimpleFinTransaction.memo y = SimpleFinTransaction.memo x
                ∧ SimpleFinTransaction.posted y = SimpleFinTransaction.posted x
                ∧ SimpleFinTransaction.transacted_at y
                  = SimpleFinTransaction.transacted_at x
                ∧ SimpleFinTransaction.receipt y
                  = SimpleFinTransaction.receipt x)); [done| |done].
    intros x y (H1 & H2 & H3 & H4 & H5 & H6 & H7).
    destruct (categorize_transaction_fields mapping y)
      as (G1 & G2 & G3 & G4 & G5 & G6 & G7).
    repeat split; congruence.
Qed.

Lemma categorize_transaction_no_rule mapping t :
  mapping !! SimpleFinTransaction.payee t = None →
  categorize_transaction mapping t = t.
Proof.
  intros H. unfold categorize_transaction. rewrite H. simpl.
  rewrite andb_false_r. by destruct t.
Qed.

(** X9: a transaction whose payee has no rule in the mapping comes out of
    [categorize_transactions] exactly as it went in. *)
Theorem categorize_transactions_no_rule transactions mapping (σ : heap) r t :
  σ !! r = Some t →
  mapping !! SimpleFinTransaction.payee t = None →
  categorize_transactions transactions mapping σ !! r = Some t.
Proof.
  intros Ht Hnone. unfold categorize_transactions.
  destruct (alter_all_rel (categorize_transaction mapping)
              (λ x y, mapping !! SimpleFinTransaction.payee x = None → y = x)
              σ transactions r t) as (t' & Ht' & Hsame); [done| |done|].
  - intros x y Hxy Hx. rewrite (Hxy Hx).
    by apply categorize_transaction_no_rule.
  - by rewrite Ht', (Hsame Hnone).
Qed.

Lemma categorize_transactions_no_rule_witness :
  sample_heap !! 2%nat = Some transaction_t3
  ∧ acme_mapping !! SimpleFinTransaction.payee transaction_t3 = None
  ∧ categorize_transactions [0%nat; 2%nat; 2%nat] acme_mapping sample_heap
      !! 2%nat = Some transaction_t3.
Proof.
  assert (sample_heap !! 2%nat = Some transaction_t3) as Ht by by vm_compute.
  assert (acme_mapping !! SimpleFinTransaction.payee transaction_t3 = None)
    as Hnone by by vm_compute.
  split; [exact Ht|]. split; [exact Hnone|].
  exact (categorize_transactions_no_rule [0%nat; 2%nat; 2%nat] acme_mapping
           sample_heap 2%nat transaction_t3 Ht Hnone).
Defined.

(** ** The lookup sheet *)

(** X10: [Category.from_row] takes the category from the second cell of the
    row and the display name from the third; a cell the row does not have is
    unset, further cells are ignored, and no row makes it fail. *)
Theorem from_row_cells (row : list string) :
  Category.category (Category.from_row row) = row !! 1%nat
  ∧ Category.name (Category.from_row row) = row !! 2%nat.
Proof.
  unfold Category.from_row. simpl.
  destruct row as [|x0 [|x1 [|x2 row]]]; done.
Qed.

Lemma first_column_Raise values e :
  first_column values = Raise e → e = IndexError ∧ [] ∈ values.
Proof.
  induction values as [|row values IH]; [done|].
  destruct row as [|x row]; simpl.
  - intros [= <-]. split; [done|by left].
  - destruct (first_column values) as [ids|e']; [done|].
    intros [= <-]. destruct (IH eq_refl) as [-> Hin]. split; [done|by right].
Qed.

Lemma first_column_Ok_inv values ids :
  first_column values = Ok ids → [] ∉ values.
Proof.
  revert ids. induction values as [|row values IH]; intros ids.
  - intros _ H. by apply elem_of_nil in H.
  - destruct row as [|x row]; [done|]. simpl.
    destruct (first_column values) as [ids'|]; [|done].
    intros _ [H|H]%elem_of_cons; [done|]. by apply (IH ids').
Qed.

Lemma Forall_nonempty_iff (values : list (list string)) :
  Forall (λ row, row ≠ []) values ↔ [] ∉ values.
Proof.
  rewrite Forall_forall. split.
  - intros H Hin. by apply (H [] Hin).
  - intros H row Hrow ->. done.
Qed.

Lemma mapping_of_rows_Ok values mapping :
  [] ∉ values →
  ∃ mapping', mapping_of_rows values mapping = Ok mapping'
    ∧ ∀ k, mapping' !! k =
        match last (filter (λ row, head row = Some k) values) with
        | Some row => Some (Category.from_row row)
        | None => mapping !! k
        end.
Proof.
  revert mapping. induction values as [|row values IH]; intros mapping Hne.
  - exists mapping. done.
  - destruct row as [|x cells]; [exfalso; apply Hne; by left|].
    destruct (IH (<[x := Category.from_row (x :: cells)]> mapping))
      as (m' & Hm' & Hlook).
    { intros H. apply Hne. by right. }
    exists m'. split; [exact Hm'|]. intros k. rewrite Hlook.
    rewrite filter_cons. simpl.
    destruct (decide (Some x = Some k)) as [[= ->]|Hne'].
    + rewrite last_cons.
      destruct (last (filter _ values)); [done|].
      by rewrite lookup_insert_eq.
    + destruct (last (filter _ values)); [done|].
      rewrite lookup_insert_ne; [done|]. congruence.
Qed.

(** X11: [get_category_mapping] raises [AssertionError] exactly on a sheet
    without rows and [IndexError] exactly on a sheet with rows of which one
    has no cell; on every other sheet it returns. *)
Theorem get_category_mapping_outcome (values : list (list string)) :
  (get_category_mapping values = Raise AssertionError ↔ values = [])
  ∧ (get_category_mapping values = Raise IndexError
     ↔ values ≠ [] ∧ [] ∈ values)
  ∧ ((∃ result, get_category_mapping values = Ok result)
     ↔ values ≠ [] ∧ [] ∉ values).
Proof.
  unfold get_category_mapping.
  destruct values as [|row values]; [simpl|].
  { split; [done|]. split; [split; [done|by intros [? _]]|].
    split; [by intros [? ?]|by intros [? _]]. }
  cbn [is_list_of_strings].
  destruct (first_column (row :: values)) as [ids|e] eqn:Hfirst.
  - pose proof (first_column_Ok_inv _ _ Hfirst) as Hne.
    destruct (mapping_of_rows_Ok (row :: values) ∅ Hne) as (m & -> & _).
    split; [done|]. split; [split; [done|by intros []]|].
    split; [done|]. intros _. by eexists.
  - apply first_column_Raise in Hfirst as [-> Hin].
    split; [done|]. split; [done|].
    split; [by intros []|]. by intros [].
Qed.

(** X12: the mapping [get_category_mapping] returns has for a payee the rule
    of the last row of the sheet whose first cell is that payee, and none if
    there is no such row; its keys are the returned set [categories]. *)
Theorem get_category_mapping_last_row values categories mapping :
  get_category_mapping values = Ok (categories, mapping) →
  (∀ k, mapping !! k =
        Category.from_row
          <$> last (filter (λ row, head row = Some k) values))
  ∧ dom mapping = categories
  ∧ ∀ k, k ∈ categories ↔ ∃ row, row ∈ values ∧ head row = Some k.
Proof.
  unfold get_category_mapping.
  destruct (is_list_of_strings values); [|done].
  destruct (first_column values) as [ids|] eqn:Hfirst; [|done].
  pose proof (first_column_Ok_inv _ _ Hfirst) as Hne.
  destruct (mapping_of_rows_Ok values ∅ Hne) as (m & -> & Hlook).
  intros [= <- <-].
  destruct (first_column_Ok values) as (ids' & Hids' & Hmem);
    [by apply Forall_nonempty_iff|].
  rewrite Hfirst in Hids'. injection Hids' as <-.
  assert (∀ k, m !! k = Category.from_row
                 <$> last (filter (λ row, head row = Some k) values)) as Hm.
  { intros k. rewrite Hlook. by destruct (last _). }
  split; [exact Hm|]. split; [|exact Hmem].
  apply set_eq. intros k. rewrite elem_of_dom, Hm, Hmem, fmap_is_Some.
  split.
  - intros [row Hrow]. exists row. apply last_Some_elem_of in Hrow.
    by apply list_elem_of_filter in Hrow as [? ?].
  - intros (row & Hin & Hhead).
    destruct (last (filter (λ row, head row = Some k) values)) eqn:Hlast;
      [by eexists|].
    apply last_None in Hlast.
    exfalso. eapply (filter_nil_not_elem_of _ _ row Hlast); done.
Qed.

Lemma get_category_mapping_last_row_witness :
  let values := [["ACME CORP"; "Dining"; "Acme Diner"];
                 ["CORNER SHOP"; "Household"];
                 ["ACME CORP"; "Groceries"; "Acme"]] in
  ∃ categories mapping,
    get_category_mapping values = Ok (categories, mapping)
    ∧ mapping !! "ACME CORP"
      = Some (Category.mk (Some "Groceries") (Some "Acme"))
    ∧ (∀ k, mapping !! k =
            Category.from_row
              <$> last (filter (λ row, head row = Some k) values))
    ∧ dom mapping = categories
    ∧ ∀ k, k ∈ categories ↔ ∃ row, row ∈ values ∧ head row = Some k.
Proof.
  intros values.
  destruct (get_category_mapping values) as [[categories mapping]|] eqn:H;
    [|by vm_compute in H].
  exists categories, mapping. split; [reflexivity|].
  split; [|exact (get_category_mapping_last_row values categories mapping H)].
  destruct (get_category_mapping_last_row values categories mapping H)
    as [Hlook _]. rewrite Hlook. reflexivity.
Defined.

(** ** The sheet writer and the pipeline *)

(** X13: [insert_records_to_google_sheet] raises [AssertionError] exactly on
    a sheet without rows and [IndexError] exactly on a sheet with rows of
    which one has no cell, whatever the transactions; on every other sheet
    it reaches [append_rows]. *)
Theorem insert_records_outcome (values : list (list string)) transactions :
  (insert_records_to_google_sheet values transactions = Raise AssertionError
   ↔ values = [])
  ∧ (insert_records_to_google_sheet values transactions = Raise IndexError
     ↔ values ≠ [] ∧ [] ∈ values)
  ∧ ((∃ records,
        insert_records_to_google_sheet values transactions = Ok records)
     ↔ values ≠ [] ∧ [] ∉ values).
Proof.
  unfold insert_records_to_google_sheet.
  destruct values as [|row values]; [simpl|].
  { split; [done|]. split; [split; [done|by intros [? _]]|].
    split; [by intros [? ?]|by intros [? _]]. }
  cbn [is_list_of_strings].
  destruct (first_column (row :: values)) as [ids|e] eqn:Hfirst.
  - pose proof (first_column_Ok_inv _ _ Hfirst) as Hne.
    split; [done|]. split; [split; [done|by intros []]|].
    split; [done|]. intros _. by eexists.
  - apply first_column_Raise in Hfirst as [-> Hin].
    split; [done|]. split; [done|].
    split; [by intros []|]. by intros [].
Qed.

Lemma elem_of_id_column values x :
  x ∈ id_column values ↔ ∃ row, row ∈ values ∧ head row = Some x.
Proof. unfold id_column. apply list_elem_of_omap. Qed.

(** X14: if no id stands twice in the id column of the sheet and no two of
    the transactions have the same id, then no id stands twice in the column
    once the emitted rows are appended. *)
Theorem insert_records_keeps_ids_unique values transactions records :
  insert_records_to_google_sheet values transactions = Ok records →
  NoDup (id_column values) →
  NoDup (SimpleFinTransaction.id <$> transactions) →
  NoDup (id_column values ++ row_ids records).
Proof.
  unfold insert_records_to_google_sheet.
  destruct (is_list_of_strings values); [|done].
  destruct (first_column values) as [ids|] eqn:Hfirst; [|done].
  intros [= <-] Hcol Hids. rewrite new_records_ids.
  destruct (first_column_Ok values) as (ids' & Hids' & Hmem).
  { apply Forall_nonempty_iff. by eapply first_column_Ok_inv. }
  rewrite Hfirst in Hids'. injection Hids' as <-.
  apply NoDup_app. split; [exact Hcol|]. split; [|by apply NoDup_filter].
  intros x Hx Hnew. apply list_elem_of_filter in Hnew as [Hnotin _].
  apply Hnotin, Hmem. by apply elem_of_id_column.
Qed.

Lemma insert_records_keeps_ids_unique_witness :
  let values := [["t1"; "ACME CORP"; "-42.5"]; ["t2"; "ACME CORP"; "0"]] in
  let transactions := [transaction_0310; transaction_t3] in
  insert_records_to_google_sheet values transactions
    = Ok [convert_to_row transaction_t3]
  ∧ NoDup (id_column values)
  ∧ NoDup (SimpleFinTransaction.id <$> transactions)
  ∧ NoDup (id_column values ++ row_ids [convert_to_row transaction_t3]).
Proof.
  intros values transactions.
  assert (insert_records_to_google_sheet values transactions
          = Ok [convert_to_row transaction_t3]) as Hrun by by vm_compute.
  assert (NoDup (id_column values)) as Hcol
    by (apply (bool_decide_unpack (NoDup (id_column values)));
        by vm_compute).
  assert (NoDup (SimpleFinTransaction.id <$> transactions)) as Hids
    by (apply (bool_decide_unpack
                 (NoDup (SimpleFinTransaction.id <$> transactions)));
        by vm_compute).
  split; [exact Hrun|]. split; [exact Hcol|]. split; [exact Hids|].
  exact (insert_records_keeps_ids_unique values transactions _
           Hrun Hcol Hids).
Defined.

Lemma fmap_omap_ext {A B C} (f : B → C) (g1 g2 : A → option B)
    (l : list A) :
  (∀ x, f <$> g1 x = f <$> g2 x) → f <$> omap g1 l = f <$> omap g2 l.
Proof.
  intros H. induction l as [|x l IH]; [done|].
  change (omap g1 (x :: l))
    with (match g1 x with Some y => y :: omap g1 l | None => omap g1 l end).
  change (omap g2 (x :: l))
    with (match g2 x with Some y => y :: omap g2 l | None => omap g2 l end).
  specialize (H x). destruct (g1 x), (g2 x); try done.
  rewrite !fmap_cons, IH. simpl in H. by injection H as ->.
Qed.

(** Updates that keep the id keep the ids a list of references denotes. *)
Lemma ids_of_alter_all (f : SimpleFinTransaction.t → SimpleFinTransaction.t)
    (σ : heap) refs' refs :
  (∀ x, SimpleFinTransaction.id (f x) = SimpleFinTransaction.id x) →
  ids_of (alter_all f σ refs') refs = ids_of σ refs.
Proof.
  intros Hf. unfold ids_of, deref. apply fmap_omap_ext. intros r.
  destruct (σ !! r) as [t|] eqn:Ht.
  - destruct (alter_all_rel f
                (λ x y, SimpleFinTransaction.id y = SimpleFinTransaction.id x)
                σ refs' r t) as (t' & -> & Hid); [done| |done|].
    { intros x y Hxy. by rewrite Hf. }
    simpl. by rewrite Hid.
  - assert (alter_all f σ refs' !! r = None) as ->; [|done].
    apply not_elem_of_dom. rewrite alter_all_dom. by apply not_elem_of_dom.
Qed.

Lemma categorize_transaction_id mapping t :
  SimpleFinTransaction.id (categorize_transaction mapping t)
  = SimpleFinTransaction.id t.
Proof. by destruct (categorize_transaction_fields mapping t) as [? _]. Qed.

(** X15: when [main]'s pipeline reaches the append, it appends one row for
    each fetched transaction whose id is not in the id column of the sheet,
    the most recently transacted first and transactions of equal
    [transacted_at] in the order they were fetched. *)
Theorem pipeline_rows mapping documents accounts (σ : heap) values records :
  pipeline mapping documents accounts σ values = Ok records →
  ∃ current_ids : gset string,
    first_column values = Ok current_ids
    ∧ row_ids records
      = filter (λ i, i ∉ current_ids)
          (ids_of σ (sorted (transacted_at_of σ) true
                            (account_refs accounts))).
Proof.
  unfold pipeline. rewrite attach_receipts_spec. cbv zeta.
  unfold insert_records_to_google_sheet, categorize_transactions.
  destruct (is_list_of_strings values); [|done].
  destruct (first_column values) as [ids|]; [|done].
  intros [= <-]. exists ids. split; [done|]. rewrite new_records_ids.
  f_equal.
  change (ids_of (alter_all (categorize_transaction mapping)
                    (alter_all (attach_receipt (group_receipts documents)) σ
                       (account_refs accounts))
                    (sorted (transacted_at_of
                               (alter_all
                                  (attach_receipt (group_receipts documents))
                                  σ (account_refs accounts)))
                            true (account_refs accounts)))
            (sorted (transacted_at_of
                       (alter_all (attach_receipt (group_receipts documents))
                          σ (account_refs accounts)))
                    true (account_refs accounts))
          = ids_of σ (sorted (transacted_at_of σ) true
                             (account_refs accounts))).
  rewrite ids_of_alter_all by apply categorize_transaction_id.
  rewrite ids_of_alter_all by done.
  f_equal. apply sorted_ext, Forall_forall. intros r _.
  apply transacted_at_of_attached.
Qed.

Lemma pipeline_rows_witness :
  let values := [["id"; "payee"; "amount"]; ["t1"; "ACME CORP"; "-42.5"]] in
  let accounts := [sample_account [0%nat; 2%nat]; sample_account [3%nat]] in
  ∃ records (current_ids : gset string),
    pipeline acme_mapping [receipt_0309] accounts sample_heap4 values
      = Ok records
    ∧ row_ids records = ["t4"; "t3"]
    ∧ first_column values = Ok current_ids
    ∧ row_ids records
      = filter (λ i, i ∉ current_ids)
          (ids_of sample_heap4
             (sorted (transacted_at_of sample_heap4) true
                     (account_refs accounts))).
Proof.
  intros values accounts.
  destruct (pipeline acme_mapping [receipt_0309] accounts sample_heap4 values)
    as [records|] eqn:H; [|by vm_compute in H].
  destruct (pipeline_rows _ _ _ _ _ _ H) as (ids & Hids & Hrows).
  exists records, ids. split; [reflexivity|].
  split; [|by split].
  assert (pipeline acme_mapping [receipt_0309] accounts sample_heap4 values
          = Ok (new_records {[ "id"; "t1" ]}
                  [SimpleFinTransaction.set_payee "Acme"
                     (SimpleFinTransaction.set_receipt (Some receipt_0309)
                        (SimpleFinTransaction.set_category (Some "Dining")
                           transaction_0310_again));
                   transaction_0310_attached;
                   SimpleFinTransaction.set_category None transaction_t3]))
    as H' by by vm_compute.
  rewrite H in H'. injection H' as ->. by vm_compute.
Defined.

(** ** Args and main *)

(** X16: the list of errors of [Args.__post_init__] holds the message of a
    credential group exactly when the group is absent, each message once and
    in the order SimpleFin, Paperless, Google; the exception carries them
    after the line "Missing CLI Args ". *)
Theorem args_errors_name_absent_groups (a : Args.t) :
  ("SimpleFin credentials are required" ∈ Args.errors a
   ↔ group_absent [Args.simplefin_username a; Args.simplefin_password a;
                   Args.simplefin_access_url a])
  ∧ ("Paperless credentials are required" ∈ Args.errors a
     ↔ group_absent [Args.paperless_url a; Args.paperless_token a])
  ∧ ("Google credentials are required" ∈ Args.errors a
     ↔ group_absent [Args.google_credentials a; Args.sheets_spreadsheet_id a])
  ∧ sublist (Args.errors a)
      ["SimpleFin credentials are required";
       "Paperless credentials are required";
       "Google credentials are required"]
  ∧ (Args.errors a ≠ [] →
     Args.init a
     = Raise (ArgsError ("Missing CLI Args " +:+ newline
                         +:+ Args.join_lines (Args.errors a)))).
Proof.
  unfold Args.init, Args.post_init, Args.errors.
  rewrite !group_absent_any.
  destruct (Args.any [Args.simplefin_username a; _; _]),
           (Args.any [Args.paperless_url a; _]),
           (Args.any [Args.google_credentials a; _]); simpl;
    do 3 (split; [rewrite list_elem_of_In; simpl; intuition congruence|]);
    (split; [|done]);
    repeat first [ apply sublist_nil | apply sublist_skip
                 | apply sublist_cons ].
Qed.

Ltac not_in_calls :=
  let H := fresh in
  intros H; apply list_elem_of_In in H; simpl in H; intuition discriminate.

(** X17: [main] appends to the sheet at most once, and only when the clients
    were set up, both sheets were read and accepted and documents and
    accounts were fetched; the rows it appends are those of the pipeline on
    what was fetched. *)
Theorem main_appends_after_fetches (w : world) records :
  AppendRows records ∈ (main w).1 →
  ∃ lookup categories mapping documents accounts σ values,
    client_setup w = Ok tt
    ∧ lookup_sheet w = Ok lookup
    ∧ get_category_mapping lookup = Ok (categories, mapping)
    ∧ documents_fetched w = Ok documents
    ∧ accounts_fetched w = Ok (accounts, σ)
    ∧ transactions_sheet w = Ok values
    ∧ pipeline mapping documents accounts σ values = Ok records
    ∧ filter (λ e, is_append e = true) (main w).1 = [AppendRows records].
Proof.
  unfold main, M_bind, lift, call.
  destruct (client_setup w) as [[]|] eqn:Hsetup; simpl; [|not_in_calls].
  destruct (lookup_sheet w) as [lookup|] eqn:Hlookup; simpl; [|not_in_calls].
  destruct (get_category_mapping lookup) as [[categories mapping]|] eqn:Hmap;
    simpl; [|not_in_calls].
  destruct (documents_fetched w) as [documents|] eqn:Hdocs;
    simpl; [|not_in_calls].
  destruct (accounts_fetched w) as [[accounts σ]|] eqn:Haccs;
    simpl; [|not_in_calls].
  destruct (attach_receipts accounts documents σ) as [transactions σ1]
    eqn:Hattach.
  destruct (transactions_sheet w) as [values|] eqn:Hvalues;
    simpl; [|not_in_calls].
  destruct (insert_records_to_google_sheet values _) as [records'|] eqn:Hins;
    simpl; [|not_in_calls].
  intros Hin.
  assert (records' = records) as ->.
  { destruct (append_rows w records'); simpl in Hin;
      apply list_elem_of_In in Hin; simpl in Hin;
      intuition (discriminate || congruence). }
  exists lookup, categories, mapping, documents, accounts, σ, values.
  do 6 (split; [done|]). split.
  - unfold pipeline. by rewrite Hattach.
  - destruct (append_rows w records) as [[]|]; reflexivity.
Qed.

Lemma main_appends_after_fetches_witness :
  ∃ records,
    AppendRows records ∈ (main sample_world).1
    ∧ row_ids records = ["t3"]
    ∧ ∃ lookup categories mapping documents accounts σ values,
        client_setup sample_world = Ok tt
        ∧ lookup_sheet sample_world = Ok lookup
        ∧ get_category_mapping lookup = Ok (categories, mapping)
        ∧ documents_fetched sample_world = Ok documents
        ∧ accounts_fetched sample_world = Ok (accounts, σ)
        ∧ transactions_sheet sample_world = Ok values
        ∧ pipeline mapping documents accounts σ values = Ok records
        ∧ filter (λ e, is_append e = true) (main sample_world).1
          = [AppendRows records].
Proof.
  exists [convert_to_row (SimpleFinTransaction.set_category None
                            transaction_t3)].
  assert (AppendRows [convert_to_row (SimpleFinTransaction.set_category None
                                        transaction_t3)]
          ∈ (main sample_world).1) as Hin
    by (vm_compute; apply list_elem_of_In; simpl; tauto).
  split; [exact Hin|]. split; [reflexivity|].
  exact (main_appends_after_fetches sample_world _ Hin).
Defined.

(** What two answers of the same call have in common. *)
Ltac same_answers :=
  repeat match goal with
  | H : _ ∧ _ |- _ => destruct H
  | H : ∃ _, _ |- _ => destruct H
  | H : _ ∨ _ |- _ => destruct H
  | H : False |- _ => destruct H
  | H : _ ∈ _ |- _ => apply list_elem_of_In in H; simpl in H
  | H1 : ?a = ?b, H2 : ?a = ?c |- _ => rewrite H1 in H2
  | H : Ok _ = Ok _ |- _ => injection H as ?
  | H : Raise _ = Raise _ |- _ => injection H as ?
  | H : (_, _) = (_, _) |- _ => injection H as ? ?
  | H : AppendRows _ = AppendRows _ |- _ => injection H as ?
  | H : ?x = ?x |- _ => clear H
  | H : ?x = _ |- _ => is_var x; subst x
  | H : _ = ?x |- _ => is_var x; subst x
  end.

(** Both directions of every clause about the calls of a run. *)
Ltac settle :=
  repeat match goal with
  | |- _ ∧ _ => split
  | |- _ ↔ _ => split
  | |- ∀ _, _ => intro
  | |- _ → _ => intro
  end;
  same_answers; try discriminate;
  eauto 40 using list_elem_of_here, list_elem_of_further.

Ltac stopped_here :=
  split; [exists []; split; [by eexists|]; split; intros; done|]; settle.


(** ** fetch_data and the from_dict constructors *)

Section FromDictFacts.
Variable parse : string → Decimal_read.

Lemma datetime_fromtimestamp_Ok n :
  (∃ dt, datetime_fromtimestamp n = Ok dt) ↔ datetime_min ≤ n ≤ datetime_max.
Proof.
  unfold datetime_fromtimestamp.
  destruct (datetime_min <=? n) eqn:H1, (n <=? datetime_max) eqn:H2; simpl;
    rewrite ?Z.leb_le, ?Z.leb_gt in *;
    (split; [intros [? ?]; try done; lia | intros ?; try lia; by eexists]).
Qed.

Lemma from_dict_Ok_iff d :
  (∃ t, SimpleFinTransaction_from_dict parse d = Ok (Some t))
  ↔ transaction_dict_ok parse d.
Proof.
  unfold SimpleFinTransaction_from_dict, transaction_dict_ok.
  rewrite <- !datetime_fromtimestamp_Ok.
  destruct (datetime_fromtimestamp (SimpleFinTransactionDict.posted d));
    [|split; [by intros [? ?]|by intros [[? ?] _]]].
  destruct (datetime_fromtimestamp (SimpleFinTransactionDict.transacted_at d));
    [|split; [by intros [? ?]|by intros (_ & [? ?] & _)]].
  destruct (parse (SimpleFinTransactionDict.amount d)) as [amount|s|].
  - split; [intros _|intros _; by eexists].
    split; [by eexists|]. split; [by eexists|by eexists].
  - split; [by intros [? ?]|]. intros (_ & _ & [? ?]). done.
  - split; [by intros [? ?]|]. intros (_ & _ & [? ?]). done.
Qed.

Lemma from_dict_Raise_iff d :
  (∃ e, SimpleFinTransaction_from_dict parse d = Raise e)
  ↔ transaction_dict_bad parse d.
Proof.
  unfold SimpleFinTransaction_from_dict, transaction_dict_bad.
  rewrite <- !datetime_fromtimestamp_Ok.
  destruct (datetime_fromtimestamp (SimpleFinTransactionDict.posted d))
    as [posted|e1].
  - destruct (datetime_fromtimestamp
                (SimpleFinTransactionDict.transacted_at d)) as [at_|e2].
    + destruct (parse (SimpleFinTransactionDict.amount d)) as [amount|s|].
      * split; [by intros [? ?]|].
        intros [H|[H|H]]; [destruct H; by eexists..|done].
      * split; [by intros [? ?]|].
        intros [H|[H|H]]; [destruct H; by eexists..|done].
      * split; [intros _; by right; right|intros _; by eexists].
    + split; [intros _|intros _; by eexists].
      right. left. by intros [? ?].
  - split; [intros _|intros _; by eexists]. left. by intros [? ?].
Qed.

Lemma from_dict_unset d t :
  SimpleFinTransaction_from_dict parse d = Ok (Some t) →
  SimpleFinTransaction.category t = None
  ∧ SimpleFinTransaction.receipt t = None
  ∧ SimpleFinTransaction.id t = SimpleFinTransactionDict.id d
  ∧ SimpleFinTransaction.payee t = SimpleFinTransactionDict.payee d.
Proof.
  unfold SimpleFinTransaction_from_dict.
  destruct (datetime_fromtimestamp _); [|done].
  destruct (datetime_fromtimestamp _); [|done].
  destruct (parse _); [|done|done]. by intros [= <-].
Qed.

Lemma new_objects_nil (σ : heap) : new_objects parse σ σ [] [].
Proof.
  unfold new_objects. split; [constructor|]. split; [by intros r ?%elem_of_nil|].
  split; [by rewrite list_to_set_nil, (right_id_L ∅ (∪))|]. split; [done|].
  constructor.
Qed.

Lemma new_objects_app (σ σ1 σ2 : heap) refs1 refs2 ds1 ds2 :
  new_objects parse σ σ1 refs1 ds1 → new_objects parse σ1 σ2 refs2 ds2 →
  new_objects parse σ σ2 (refs1 ++ refs2) (ds1 ++ ds2).
Proof.
  intros (Hnd1 & Hnew1 & Hdom1 & Hold1 & Hall1)
         (Hnd2 & Hnew2 & Hdom2 & Hold2 & Hall2).
  assert (∀ r, r ∈ refs1 → r ∈ dom σ1) as Hin1.
  { intros r Hr. rewrite Hdom1. apply elem_of_union_r.
    by apply elem_of_list_to_set. }
  split; [|split; [|split; [|split]]].
  - apply NoDup_app. split; [done|]. split; [|done].
    intros r Hr1 Hr2. by apply (Hnew2 r Hr2), Hin1.
  - intros r [Hr|Hr]%elem_of_app; [by apply Hnew1|].
    intros Hσ. apply (Hnew2 r Hr). rewrite Hdom1. by apply elem_of_union_l.
  - rewrite Hdom2, Hdom1, list_to_set_app_L. by rewrite (assoc_L (∪)).
  - intros r Hr. rewrite Hold2; [by apply Hold1|].
    rewrite Hdom1. by apply elem_of_union_l.
  - apply Forall2_app; [|done].
    eapply Forall2_impl; [exact Hall1|]. intros r d (t & Ht & Hd).
    exists t. split; [|done]. rewrite Hold2; [done|].
    apply elem_of_dom. by eexists.
Qed.

Lemma transactions_from_dicts_new ds (σ : heap) refs σ' :
  transactions_from_dicts parse ds σ = Ok (Some (refs, σ')) →
  new_objects parse σ σ' refs ds.
Proof.
  revert σ refs σ'. induction ds as [|d ds IH]; intros σ refs σ'; simpl.
  - intros [= <- <-]. apply new_objects_nil.
  - destruct (SimpleFinTransaction_from_dict parse d) as [[t|]|] eqn:Hd;
      [|by destruct (transactions_from_dicts parse ds σ)|done].
    destruct (transactions_from_dicts parse ds (<[fresh (dom σ):=t]> σ))
      as [[[refs' σ'']|]|] eqn:Hrest; [|done|done].
    intros [= <- <-].
    apply (new_objects_app σ (<[fresh (dom σ):=t]> σ) σ''
             [fresh (dom σ)] refs' [d] ds); [|by apply IH].
    pose proof (is_fresh (dom σ)) as Hfresh.
    split; [apply NoDup_singleton|].
    split; [by intros r ->%list_elem_of_singleton|].
    split.
    { rewrite dom_insert_L.
      change (list_to_set [fresh (dom σ)] : gset nat)
        with ({[fresh (dom σ)]} ∪ (∅ : gset nat)).
      rewrite (right_id_L ∅ (∪)). apply (comm_L (∪)). }
    split.
    + intros r Hr. rewrite lookup_insert_ne; [done|]. by intros <-.
    + constructor; [|constructor]. exists t. by rewrite lookup_insert_eq.
Qed.

(** Whether a conversion raises does not depend on the heap. *)
Lemma transactions_from_dicts_Raise_iff ds (σ : heap) :
  (∃ e, transactions_from_dicts parse ds σ = Raise e)
  ↔ Exists (transaction_dict_bad parse) ds.
Proof.
  revert σ. induction ds as [|d ds IH]; intros σ; simpl.
  - rewrite Exists_nil. split; [by intros [? ?]|done].
  - rewrite Exists_cons, <- from_dict_Raise_iff.
    destruct (SimpleFinTransaction_from_dict parse d) as [[t|]|e0].
    + rewrite <- (IH (<[fresh (dom σ):=t]> σ)).
      destruct (transactions_from_dicts parse ds _) as [[[refs σ']|]|e1].
      * split; [by intros [? ?]|]. by intros [[? ?]|[? ?]].
      * split; [by intros [? ?]|]. by intros [[? ?]|[? ?]].
      * split; [intros _; right; by eexists|intros _; by eexists].
    + rewrite <- (IH σ).
      destruct (transactions_from_dicts parse ds σ) as [result|e1].
      * split; [by intros [? ?]|]. by intros [[? ?]|[? ?]].
      * split; [intros _; right; by eexists|intros _; by eexists].
    + split; [intros _; left; by eexists|intros _; by eexists].
Qed.

Lemma transactions_from_dicts_Ok_iff ds (σ : heap) :
  (∃ result, transactions_from_dicts parse ds σ = Ok (Some result))
  ↔ Forall (transaction_dict_ok parse) ds.
Proof.
  revert σ. induction ds as [|d ds IH]; intros σ; simpl.
  - split; [constructor|by eexists].
  - rewrite Forall_cons, <- from_dict_Ok_iff.
    destruct (SimpleFinTransaction_from_dict parse d) as [[t|]|].
    + rewrite <- (IH (<[fresh (dom σ):=t]> σ)).
      destruct (transactions_from_dicts parse ds _) as [[[refs σ']|]|].
      * split; [intros _; split; by eexists|intros _; by eexists].
      * split; [by intros [? ?]|by intros [_ [? ?]]].
      * split; [by intros [? ?]|by intros [_ [? ?]]].
    + destruct (transactions_from_dicts parse ds σ);
        (split; [by intros [? ?]|by intros [[? ?] _]]).
    + split; [by intros [? ?]|by intros [[? ?] _]].
Qed.

Lemma accounts_from_dicts_new accounts (σ : heap) result σ' :
  accounts_from_dicts parse accounts σ = Ok (Some (result, σ')) →
  new_objects parse σ σ' (account_refs result)
    (concat (SimpleFinAccountDict.transactions <$> accounts))
  ∧ Forall2 (λ a d,
       SimpleFinAccount.id a = SimpleFinAccountDict.id d
       ∧ SimpleFinAccount.name a = SimpleFinAccountDict.name d
       ∧ length (SimpleFinAccount.transactions a)
         = length (SimpleFinAccountDict.transactions d)) result accounts.
Proof.
  revert σ result σ'.
  induction accounts as [|a accounts IH]; intros σ result σ'; simpl.
  - intros [= <- <-]. split; [apply new_objects_nil|constructor].
  - unfold SimpleFinAccount_from_dict.
    destruct (transactions_from_dicts parse _ σ) as [[[refs σ1]|]|] eqn:Hts;
      [|by destruct (accounts_from_dicts parse accounts σ)|done].
    destruct (accounts_from_dicts parse accounts σ1) as [[[rest σ2]|]|]
      eqn:Hrest; [|done|done].
    intros [= <- <-]. apply transactions_from_dicts_new in Hts.
    destruct (IH _ _ _ Hrest) as [Hnew Hall]. split.
    + unfold account_refs. simpl. by eapply new_objects_app.
    + constructor; [|done]. simpl. repeat split.
      destruct Hts as (_ & _ & _ & _ & Hf). by eapply Forall2_length.
Qed.

Lemma accounts_from_dicts_Raise_iff accounts (σ : heap) :
  (∃ e, accounts_from_dicts parse accounts σ = Raise e)
  ↔ Exists (transaction_dict_bad parse)
           (concat (SimpleFinAccountDict.transactions <$> accounts)).
Proof.
  revert σ. induction accounts as [|a accounts IH]; intros σ; simpl.
  - rewrite Exists_nil. split; [by intros [? ?]|done].
  - rewrite Exists_app, <- (transactions_from_dicts_Raise_iff _ σ).
    unfold SimpleFinAccount_from_dict.
    destruct (transactions_from_dicts parse _ σ) as [[[refs σ1]|]|e0].
    + rewrite <- (IH σ1).
      destruct (accounts_from_dicts parse accounts σ1) as [[[rest σ2]|]|e1].
      * split; [by intros [? ?]|]. by intros [[? ?]|[? ?]].
      * split; [by intros [? ?]|]. by intros [[? ?]|[? ?]].
      * split; [intros _; right; by eexists|intros _; by eexists].
    + rewrite <- (IH σ).
      destruct (accounts_from_dicts parse accounts σ) as [result|e1].
      * split; [by intros [? ?]|]. by intros [[? ?]|[? ?]].
      * split; [intros _; right; by eexists|intros _; by eexists].
    + split; [intros _; left; by eexists|intros _; by eexists].
Qed.

Lemma accounts_from_dicts_Ok_iff accounts (σ : heap) :
  (∃ result, accounts_from_dicts parse accounts σ = Ok (Some result))
  ↔ Forall (transaction_dict_ok parse)
           (concat (SimpleFinAccountDict.transactions <$> accounts)).
Proof.
  revert σ. induction accounts as [|a accounts IH]; intros σ; simpl.
  - split; [constructor|by eexists].
  - rewrite Forall_app, <- (transactions_from_dicts_Ok_iff _ σ).
    unfold SimpleFinAccount_from_dict.
    destruct (transactions_from_dicts parse _ σ) as [[[refs σ1]|]|].
    + rewrite <- (IH σ1).
      destruct (accounts_from_dicts parse accounts σ1) as [[[rest σ2]|]|].
      * split; [intros _; split; by eexists|intros _; by eexists].
      * split; [by intros [? ?]|by intros [_ [? ?]]].
      * split; [by intros [? ?]|by intros [_ [? ?]]].
    + destruct (accounts_from_dicts parse accounts σ);
        (split; [by intros [? ?]|by intros [[? ?] _]]).
    + split; [by intros [? ?]|by intros [[? ?] _]].
Qed.
End FromDictFacts.

(** The objects of fetched accounts are distinct and in the heap. *)
Lemma fetch_data_refs parse status body (σ : heap) accounts σ' :
  fetch_data parse status body σ = Ok (Some (accounts, σ')) →
  NoDup (account_refs accounts)
  ∧ ∀ r, r ∈ account_refs accounts → is_Some (σ' !! r).
Proof.
  unfold fetch_data. destruct (negb (status =? 200)); [done|].
  destruct body as [| |data]; [done|done|]. intros H.
  apply accounts_from_dicts_new in H as [(Hnd & _ & _ & _ & Hall) _].
  split; [done|]. intros r Hr.
  destruct (proj1 (list_elem_of_lookup _ _) Hr) as [i Hi].
  destruct (Forall2_lookup_l _ _ _ _ _ Hall Hi) as (d & _ & t & Ht & _).
  by exists t.
Qed.

(** X19: the transaction objects of the accounts [fetch_data] returns are
    new and pairwise different - no object is listed twice, in one account
    or in two - the objects that existed are untouched, and the new ones are
    the conversions of the records of the response, in order, each without
    category and without receipt. *)
Theorem fetch_data_new_objects parse status body (σ : heap) accounts σ' :
  fetch_data parse status body σ = Ok (Some (accounts, σ')) →
  ∃ data,
    body = SimpleFinBody data
    ∧ NoDup (account_refs accounts)
    ∧ (∀ r, r ∈ account_refs accounts → r ∉ dom σ)
    ∧ (∀ r, r ∈ dom σ → σ' !! r = σ !! r)
    ∧ Forall2 (λ r d, ∃ t,
         σ' !! r = Some t
         ∧ SimpleFinTransaction_from_dict parse d = Ok (Some t)
         ∧ SimpleFinTransaction.category t = None
         ∧ SimpleFinTransaction.receipt t = None)
        (account_refs accounts) (response_transactions data).
Proof.
  unfold fetch_data. destruct (negb (status =? 200)); [done|].
  destruct body as [| |data]; [done|done|]. intros H. exists data.
  apply accounts_from_dicts_new in H as [(Hnd & Hnew & _ & Hold & Hall) _].
  split; [done|]. split; [done|]. split; [done|]. split; [done|].
  eapply Forall2_impl; [exact Hall|]. intros r d (t & Ht & Hd).
  exists t. destruct (from_dict_unset parse d t Hd) as (? & ? & _). done.
Qed.

Lemma fetch_data_new_objects_witness :
  ∃ accounts σ' data,
    fetch_data plain_Decimal_of_string 200 (SimpleFinBody sample_response)
               sample_heap = Ok (Some (accounts, σ'))
    ∧ account_refs accounts = [3%nat; 4%nat; 5%nat]
    ∧ SimpleFinBody sample_response = SimpleFinBody data
    ∧ NoDup (account_refs accounts)
    ∧ (∀ r, r ∈ account_refs accounts → r ∉ dom sample_heap)
    ∧ (∀ r, r ∈ dom sample_heap → σ' !! r = sample_heap !! r)
    ∧ Forall2 (λ r d, ∃ t,
         σ' !! r = Some t
         ∧ SimpleFinTransaction_from_dict plain_Decimal_of_string d
           = Ok (Some t)
         ∧ SimpleFinTransaction.category t = None
         ∧ SimpleFinTransaction.receipt t = None)
        (account_refs accounts) (response_transactions data).
Proof.
  destruct (fetch_data plain_Decimal_of_string 200
              (SimpleFinBody sample_response) sample_heap)
    as [[[accounts σ']|]|] eqn:H; [|by vm_compute in H..].
  destruct (fetch_data_new_objects _ _ _ _ _ _ H) as (data & Hdata & Hrest).
  exists accounts, σ', data. split; [reflexivity|].
  split; [|by split].
  vm_compute in H. injection H as <- _. reflexivity.
Defined.

(** X20: on an answer whose body is no JSON, is turned down by
    [is_simplefin_response] or is a response as declared, [fetch_data]
    raises exactly when the status is not 200, the body is not such a
    response, or a transaction record of an account has a time stamp
    outside the years 1 to 9999 or an amount [Decimal] does not read - one
    such record fails the whole fetch, wherever it stands; and it returns
    accounts whose amounts are all finite numbers exactly when the status
    is 200 and every record has both time stamps in range and an amount
    that reads as a finite number.  In between it returns accounts with an
    amount that is an infinity or a NaN: these [Decimal] reads without an
    exception. *)
Theorem fetch_data_outcome parse status body (σ : heap) :
  ((∃ e, fetch_data parse status body σ = Raise e)
   ↔ status ≠ 200
     ∨ body = SimpleFinNotJson
     ∨ body = SimpleFinNotResponse
     ∨ ∃ data, body = SimpleFinBody data
         ∧ Exists (transaction_dict_bad parse) (response_transactions data))
  ∧ ((∃ result, fetch_data parse status body σ = Ok (Some result))
     ↔ status = 200
       ∧ ∃ data, body = SimpleFinBody data
           ∧ Forall (transaction_dict_ok parse) (response_transactions data))
  ∧ (fetch_data parse status body σ = Ok None
     ↔ status = 200
       ∧ ∃ data, body = SimpleFinBody data
           ∧ ¬ Exists (transaction_dict_bad parse) (response_transactions data)
           ∧ ¬ Forall (transaction_dict_ok parse)
                 (response_transactions data)).
Proof.
  unfold fetch_data, response_transactions.
  destruct (status =? 200) eqn:Hs; simpl.
  - apply Z.eqb_eq in Hs. destruct body as [| |data].
    + split; [|split].
      * split; [intros _; right; by left|intros _; by eexists].
      * split; [by intros [? ?]|by intros (_ & ? & ? & _)].
      * split; [done|by intros (_ & ? & ? & _)].
    + split; [|split].
      * split; [intros _; right; right; by left|intros _; by eexists].
      * split; [by intros [? ?]|by intros (_ & ? & ? & _)].
      * split; [done|by intros (_ & ? & ? & _)].
    + pose proof (accounts_from_dicts_Raise_iff parse
                    (SimpleFinResponseDict.accounts data) σ) as Hraise.
      pose proof (accounts_from_dicts_Ok_iff parse
                    (SimpleFinResponseDict.accounts data) σ) as Hok.
      split; [|split].
      * rewrite Hraise. split.
        -- intros H. do 3 right. by exists data.
        -- intros [?|[?|[?|(data' & [= <-] & H)]]]; done.
      * rewrite Hok. split.
        -- intros H. split; [done|]. by exists data.
        -- by intros (_ & data' & [= <-] & H).
      * split.
        -- intros H. split; [done|]. exists data. split; [done|].
           rewrite <- Hraise, <- Hok, H.
           split; [by intros [? ?]|by intros [? ?]].
        -- intros (_ & data' & [= <-] & Hnr & Hno).
           rewrite <- Hraise in Hnr. rewrite <- Hok in Hno.
           destruct (accounts_from_dicts parse _ σ) as [[result|]|e];
             [|done|].
           ++ destruct Hno. by eexists.
           ++ destruct Hnr. by eexists.
  - apply Z.eqb_neq in Hs. split; [|split].
    + split; [intros _; by left|intros _; by eexists].
    + split; [by intros [? ?]|by intros [? _]].
    + split; [done|by intros [? _]].
Qed.

(** An amount that is no number is read without an exception, and a record
    behind it that does not convert still fails the fetch. *)
Example fetch_data_nan :
  fetch_data plain_Decimal_of_string 200 (SimpleFinBody sample_response_nan)
             sample_heap = Ok None
  ∧ ∃ e,
      fetch_data plain_Decimal_of_string 200
        (SimpleFinBody
           (SimpleFinResponseDict.mk
              (SimpleFinResponseDict.accounts sample_response_nan
               ++ [SimpleFinAccountDict.mk "" "" 0 "USD" "acc-9" "Broken"
                     [SimpleFinTransactionDict.mk "t9" "12,50" "" "" ""
                        0 0]])
              None None))
        sample_heap = Raise e.
Proof. split; [by vm_compute|]. eexists. by vm_compute. Qed.

(** X21: in the pipeline every fetched transaction is matched once and
    categorised once: after [attach_receipts] and [categorize_transactions]
    on the accounts [fetch_data] returned, each transaction of the list is
    the object as fetched with the receipt attached and then the rule of its
    fetched payee applied; the list names no object twice. *)
Theorem fetched_transactions_categorised_once parse status body (σ : heap)
    accounts σ1 documents mapping r :
  fetch_data parse status body σ = Ok (Some (accounts, σ1)) →
  r ∈ (attach_receipts accounts documents σ1).1 →
  NoDup (attach_receipts accounts documents σ1).1
  ∧ ∃ t0,
      σ1 !! r = Some t0
      ∧ categorize_transactions (attach_receipts accounts documents σ1).1
          mapping (attach_receipts accounts documents σ1).2 !! r
        = Some (categorize_transaction mapping
                  (attach_receipt (group_receipts documents) t0)).
Proof.
  intros Hfetch Hr.
  destruct (fetch_data_refs _ _ _ _ _ _ Hfetch) as [Hnd Hall].
  assert (NoDup (attach_receipts accounts documents σ1).1) as Hnd'.
  { rewrite attach_receipts_spec. simpl. by rewrite sorted_Permutation. }
  split; [exact Hnd'|].
  assert (r ∈ account_refs accounts) as Hr'.
  { revert Hr. rewrite attach_receipts_spec. simpl. apply elem_of_sorted. }
  destruct (Hall r Hr') as [t0 Ht0].
  exists t0. split; [exact Ht0|].
  unfold categorize_transactions. rewrite alter_all_NoDup by done.
  rewrite attach_receipts_spec. simpl.
  rewrite alter_all_idemp by (done || apply attach_receipt_idemp).
  by rewrite Ht0.
Qed.

Lemma fetched_transactions_categorised_once_witness :
  ∃ accounts σ1 t0,
    fetch_data plain_Decimal_of_string 200 (SimpleFinBody sample_response) ∅
      = Ok (Some (accounts, σ1))
    ∧ 0%nat ∈ (attach_receipts accounts [receipt_0309] σ1).1
    ∧ NoDup (attach_receipts accounts [receipt_0309] σ1).1
    ∧ σ1 !! 0%nat = Some t0
    ∧ SimpleFinTransaction.payee t0 = "ACME CORP"
    ∧ categorize_transactions (attach_receipts accounts [receipt_0309] σ1).1
        acme_mapping (attach_receipts accounts [receipt_0309] σ1).2 !! 0%nat
      = Some (categorize_transaction acme_mapping
                (attach_receipt (group_receipts [receipt_0309]) t0)).
Proof.
  destruct (fetch_data plain_Decimal_of_string 200
              (SimpleFinBody sample_response) ∅)
    as [[[accounts σ1]|]|] eqn:H; [|by vm_compute in H..].
  assert (0%nat ∈ (attach_receipts accounts [receipt_0309] σ1).1) as Hin.
  { vm_compute in H. injection H as <- <-. vm_compute.
    apply list_elem_of_In. simpl. tauto. }
  destruct (fetched_transactions_categorised_once _ _ _ _ _ _ [receipt_0309]
              acme_mapping 0%nat H Hin) as (Hnd & t0 & Ht0 & Hcat).
  exists accounts, σ1, t0. split; [reflexivity|].
  split; [exact Hin|]. split; [exact Hnd|]. split; [exact Ht0|].
  split; [|exact Hcat].
  vm_compute in H. injection H as _ <-. vm_compute in Ht0.
  by injection Ht0 as <-.
Defined.

(** ** Document.from_dict and fetch_documents *)

(** Within 28 digits and the exponent range of the context, negation is
    exact. *)
Lemma Decimal_neg_exact c e :
  digits10 c ≤ decimal_prec → decimal_Etiny ≤ e →
  e + digits10 c - 1 ≤ decimal_Emax →
  Decimal_neg (mkDecimal c e) = Ok (mkDecimal (- c) e).
Proof.
  intros Hnd Hlo Hhi. unfold Decimal_neg, Decimal_fix. simpl.
  assert (digits10 (- c) = digits10 c) as Hd
    by (unfold digits10; by rewrite Z.abs_opp).
  destruct (- c =? 0) eqn:Hz.
  - apply Z.eqb_eq in Hz.
    assert (digits10 c = 1) as H1.
    { replace c with 0 by lia. reflexivity. }
    rewrite Hz. f_equal. f_equal. unfold decimal_Emax in *. lia.
  - rewrite Hd. unfold decimal_Etop, decimal_prec, decimal_Emax in *.
    replace (999999 - 28 + 1 <? digits10 c + e - 28) with false
      by (symmetry; apply Z.ltb_ge; lia).
    replace (e <? Z.max (digits10 c + e - 28) decimal_Etiny) with false
      by (symmetry; apply Z.ltb_ge; lia).
    reflexivity.
Qed.

Lemma replace_USD_unfold c1 rest1 :
  replace_USD (String c1 rest1) =
  match rest1 with
  | String c2 (String c3 rest3) =>
      if Ascii.eqb c1 (Ascii.ascii_of_nat 85)
         && Ascii.eqb c2 (Ascii.ascii_of_nat 83)
         && Ascii.eqb c3 (Ascii.ascii_of_nat 68)
      then replace_USD rest3
      else String c1 (replace_USD rest1)
  | _ => String c1 (replace_USD rest1)
  end.
Proof. by destruct rest1 as [|c2 [|c3 rest3]]. Qed.

(** Text without the letter U is left as it is, and a leading "USD" goes. *)
Lemma replace_USD_no_U s :
  (∀ i, String.get i s ≠ Some (Ascii.ascii_of_nat 85)) → replace_USD s = s.
Proof.
  induction s as [|c1 rest1 IH]; intros HU; [done|].
  assert (Ascii.eqb c1 (Ascii.ascii_of_nat 85) = false) as Hc1.
  { apply Ascii.eqb_neq. intros ->. by apply (HU 0%nat). }
  assert (replace_USD rest1 = rest1) as Hrest.
  { apply IH. intros i. apply (HU (S i)). }
  rewrite replace_USD_unfold, Hc1, Hrest.
  by destruct rest1 as [|c2 [|c3 rest3]].
Qed.

Lemma replace_USD_prefix s : replace_USD ("USD" +:+ s) = replace_USD s.
Proof. reflexivity. Qed.

Lemma pages_results_cons data pages :
  pages_results (data :: pages)
  = ResponseDict.results data ++ pages_results pages.
Proof. reflexivity. Qed.

Section PaperlessFacts.
Variable date_parse : string → option date.
Variable parse : string → Decimal_read.
Variable server : string → Z * paperless_body.

Lemma Document_from_dict_total data document :
  Document_from_dict date_parse parse data = Ok (Some document) →
  Document.total document = None
  ↔ first_field CustomField_TOTAL (DocumentDict.custom_fields data) = None.
Proof.
  unfold Document_from_dict. destruct (date_parse _); [|done].
  destruct (first_field CustomField_TOTAL _) as [f|].
  - destruct (parse _) as [amount|[]|]; [|done..].
    destruct (Decimal_neg amount); [|done]. by intros [= <-].
  - by intros [= <-].
Qed.

Lemma both_nil {A} (documents : option (list A)) :
  both (app <$> documents) (Some []) = documents.
Proof. destruct documents; simpl; [|done]. by rewrite app_nil_r. Qed.

Lemma both_cons_app {A} (document : option A) (l1 l2 : option (list A)) :
  both (cons <$> document) (both (app <$> l1) l2)
  = both (app <$> both (cons <$> document) l1) l2.
Proof. by destruct document, l1, l2. Qed.

Lemma documents_from_dicts_app l1 l2 :
  documents_from_dicts date_parse parse (l1 ++ l2) =
  match documents_from_dicts date_parse parse l1 with
  | Raise e => Raise e
  | Ok documents =>
      match documents_from_dicts date_parse parse l2 with
      | Raise e => Raise e
      | Ok more => Ok (both (app <$> documents) more)
      end
  end.
Proof.
  induction l1 as [|d l1 IH]; simpl.
  - by destruct (documents_from_dicts date_parse parse l2) as [[more|]|].
  - destruct (Document_from_dict date_parse parse d) as [document|]; [|done].
    rewrite IH.
    destruct (documents_from_dicts date_parse parse l1) as [documents|];
      [|done].
    destruct (documents_from_dicts date_parse parse l2) as [more|]; [|done].
    by rewrite both_cons_app.
Qed.

Lemma inner_fetch_200 depth url data :
  server url = (200, PaperlessBody data) →
  inner_fetch_documents date_parse parse server (S depth) url =
  match documents_from_dicts date_parse parse (ResponseDict.results data) with
  | Raise e => Raise e
  | Ok documents =>
      if truthy (ResponseDict.next data) then
        match inner_fetch_documents date_parse parse server depth
                (default "" (ResponseDict.next data)) with
        | Raise e => Raise e
        | Ok more => Ok (both (app <$> documents) more)
        end
      else Ok documents
  end.
Proof. intros H. simpl. by rewrite H. Qed.

Lemma inner_fetch_chain depth url pages :
  page_chain server url pages → (length pages ≤ depth)%nat →
  inner_fetch_documents date_parse parse server depth url
  = documents_from_dicts date_parse parse (pages_results pages).
Proof.
  intros Hchain. revert depth.
  induction Hchain as [url data Hurl Hnext|url data pages Hurl Hnext _ IH];
    intros depth Hdepth; (destruct depth as [|depth]; [simpl in Hdepth; lia|]);
    rewrite (inner_fetch_200 _ _ _ Hurl), Hnext, pages_results_cons,
      documents_from_dicts_app.
  - destruct (documents_from_dicts _ _ (ResponseDict.results data)); [|done].
    simpl. by rewrite both_nil.
  - destruct (documents_from_dicts _ _ (ResponseDict.results data)); [|done].
    rewrite IH by (simpl in Hdepth; lia). done.
Qed.

Lemma inner_fetch_Ok depth url result :
  inner_fetch_documents date_parse parse server depth url = Ok result →
  ∃ pages, page_chain server url pages ∧ (length pages ≤ depth)%nat
    ∧ documents_from_dicts date_parse parse (pages_results pages)
      = Ok result.
Proof.
  revert url result. induction depth as [|depth IH]; intros url result;
    [done|]. simpl.
  destruct (server url) as [status body] eqn:Hurl.
  destruct (status =? 200) eqn:Hstatus; [|done]. apply Z.eqb_eq in Hstatus.
  subst status. simpl. destruct body as [| |data]; [done|done|].
  destruct (documents_from_dicts _ _ (ResponseDict.results data))
    as [here|] eqn:Hhere; [|done].
  destruct (truthy (ResponseDict.next data)) eqn:Hnext.
  - destruct (inner_fetch_documents _ _ _ depth _) as [more|] eqn:Hmore;
      [|done].
    intros [= <-]. destruct (IH _ _ Hmore) as (pages & Hchain & Hlen & Hdocs).
    exists (data :: pages). split; [by apply chain_next|].
    split; [simpl; lia|].
    by rewrite pages_results_cons, documents_from_dicts_app, Hhere, Hdocs.
  - intros [= <-]. exists [data]. split; [by apply chain_last|].
    split; [simpl; lia|].
    rewrite pages_results_cons, documents_from_dicts_app, Hhere. simpl.
    by rewrite both_nil.
Qed.

Lemma inner_fetch_too_deep depth url pages :
  page_chain server url pages → (depth < length pages)%nat →
  ∃ e, inner_fetch_documents date_parse parse server depth url = Raise e.
Proof.
  intros Hchain. revert depth.
  induction Hchain as [url data Hurl Hnext|url data pages Hurl Hnext _ IH];
    intros depth Hdepth; (destruct depth as [|depth]; [by eexists|]);
    simpl in Hdepth; [lia|].
  rewrite (inner_fetch_200 _ _ _ Hurl), Hnext.
  destruct (documents_from_dicts _ _ (ResponseDict.results data));
    [|by eexists].
  destruct (IH depth) as [e ->]; [lia|]. by eexists.
Qed.
End PaperlessFacts.

Lemma first_field_split n before f after :
  Forall (λ g, CustomFieldDict.field g ≠ n) before →
  CustomFieldDict.field f = n →
  first_field n (before ++ f :: after) = Some f.
Proof.
  intros Hbefore Hf. unfold first_field.
  rewrite filter_app, filter_cons_True by done.
  rewrite filter_nil_Forall; [done|].
  eapply Forall_impl; [exact Hbefore|]. intros g Hg ?. done.
Qed.

Lemma first_field_None n fields :
  Forall (λ g, CustomFieldDict.field g ≠ n) fields →
  first_field n fields = None.
Proof.
  intros H. unfold first_field. rewrite filter_nil_Forall; [done|].
  eapply Forall_impl; [exact H|]. intros g Hg ?. done.
Qed.

(** X22: [Document.from_dict] takes the total from the first custom field
    with id 1: where its value with every "USD" removed reads as a decimal
    of at most 28 digits with an exponent of the context's range, the total
    is exactly the negated decimal; the date is the parsed [created_date]
    and the category the value of the first custom field with id 3, if
    any. *)
Theorem Document_from_dict_total_negated date_parse parse data created
    before f after d :
  date_parse (DocumentDict.created_date data) = Some created →
  DocumentDict.custom_fields data = before ++ f :: after →
  Forall (λ g, CustomFieldDict.field g ≠ CustomField_TOTAL) before →
  CustomFieldDict.field f = CustomField_TOTAL →
  parse (replace_USD (CustomFieldDict.value f)) = Dec_finite d →
  digits10 (coefficient d) ≤ decimal_prec →
  decimal_Etiny ≤ exponent d →
  exponent d + digits10 (coefficient d) - 1 ≤ decimal_Emax →
  Document_from_dict date_parse parse data
  = Ok (Some (Document.mk (DocumentDict.id data) created
                (Some (mkDecimal (- coefficient d) (exponent d)))
                (DocumentDict.title data)
                (CustomFieldDict.value
                   <$> first_field CustomField_CATEGORY
                         (DocumentDict.custom_fields data)))).
Proof.
  intros Hdate Hfields Hbefore Hf Hparse Hnd Hlo Hhi.
  unfold Document_from_dict. rewrite Hdate.
  rewrite Hfields at 1. rewrite (first_field_split _ _ _ _ Hbefore Hf), Hparse.
  destruct d as [c e]. simpl in *. by rewrite Decimal_neg_exact.
Qed.

Lemma Document_from_dict_total_negated_witness :
  plain_date_fromisoformat (DocumentDict.created_date dict_two_totals)
    = Some (days_from_civil 2024 3 15)
  ∧ DocumentDict.custom_fields dict_two_totals
    = [CustomFieldDict.mk "Travel" 3] ++ CustomFieldDict.mk "USD42.50" 1
        :: [CustomFieldDict.mk "USD1.00" 1]
  ∧ plain_Decimal_of_string (replace_USD "USD42.50")
    = Dec_finite (mkDecimal 4250 (-2))
  ∧ Document_from_dict plain_date_fromisoformat plain_Decimal_of_string
      dict_two_totals
    = Ok (Some (Document.mk 19 (days_from_civil 2024 3 15)
                  (Some (mkDecimal (-4250) (-2))) "Company Name"
                  (Some "Travel"))).
Proof.
  assert (plain_date_fromisoformat (DocumentDict.created_date dict_two_totals)
          = Some (days_from_civil 2024 3 15)) as Hdate by by vm_compute.
  assert (plain_Decimal_of_string (replace_USD "USD42.50")
          = Dec_finite (mkDecimal 4250 (-2))) as Hparse by by vm_compute.
  split; [exact Hdate|]. split; [reflexivity|]. split; [exact Hparse|].
  refine (Document_from_dict_total_negated plain_date_fromisoformat
            plain_Decimal_of_string dict_two_totals _
            [CustomFieldDict.mk "Travel" 3] (CustomFieldDict.mk "USD42.50" 1)
            [CustomFieldDict.mk "USD1.00" 1] (mkDecimal 4250 (-2))
            Hdate eq_refl _ eq_refl Hparse _ _ _).
  - repeat constructor. by vm_compute.
  - by vm_compute.
  - by vm_compute.
  - by vm_compute.
Defined.

(** X23: a record without a custom field of id 1 becomes a document without
    total, and [attach_receipts] attaches such a document to no
    transaction. *)
Theorem document_without_total_never_attached date_parse parse data document
    accounts receipts σ r t :
  Document_from_dict date_parse parse data = Ok (Some document) →
  Forall (λ g, CustomFieldDict.field g ≠ CustomField_TOTAL)
         (DocumentDict.custom_fields data) →
  r ∈ (attach_receipts accounts receipts σ).1 →
  (attach_receipts accounts receipts σ).2 !! r = Some t →
  Document.total document = None
  ∧ SimpleFinTransaction.receipt t ≠ Some document.
Proof.
  intros Hdoc Hfields Hr Ht.
  assert (Document.total document = None) as Htotal.
  { apply (Document_from_dict_total _ _ _ _ Hdoc).
    by apply first_field_None. }
  split; [exact Htotal|].
  destruct (attach_receipts_lookup _ _ _ _ _ Hr Ht) as (t0 & _ & ->).
  rewrite attach_receipt_receipt. intros Hpick.
  apply pick_document_Some in Hpick as [Hin _].
  apply list_elem_of_filter in Hin as [Hc _].
  unfold candidate in Hc. by rewrite Htotal in Hc.
Qed.

Lemma document_without_total_never_attached_witness :
  let document := Document.mk 20 (days_from_civil 2024 3 10) None
                              "Company Name" (Some "Misc") in
  let out := attach_receipts [sample_account [0%nat]]
                             [document; receipt_0309] sample_heap in
  Document_from_dict plain_date_fromisoformat plain_Decimal_of_string
    dict_no_total = Ok (Some document)
  ∧ Forall (λ g, CustomFieldDict.field g ≠ CustomField_TOTAL)
           (DocumentDict.custom_fields dict_no_total)
  ∧ 0%nat ∈ out.1
  ∧ out.2 !! 0%nat = Some transaction_0310_attached
  ∧ Document.total document = None
  ∧ SimpleFinTransaction.receipt transaction_0310_attached ≠ Some document.
Proof.
  intros document out.
  assert (Document_from_dict plain_date_fromisoformat plain_Decimal_of_string
            dict_no_total = Ok (Some document)) as Hdoc by by vm_compute.
  assert (Forall (λ g, CustomFieldDict.field g ≠ CustomField_TOTAL)
                 (DocumentDict.custom_fields dict_no_total)) as Hfields
    by (repeat constructor; by vm_compute).
  assert (0%nat ∈ out.1) as Hin
    by (vm_compute; apply list_elem_of_In; simpl; tauto).
  assert (out.2 !! 0%nat = Some transaction_0310_attached) as Hlook
    by by vm_compute.
  split; [exact Hdoc|]. split; [exact Hfields|]. split; [exact Hin|].
  split; [exact Hlook|].
  exact (document_without_total_never_attached _ _ _ _ _ _ _ _ _
           Hdoc Hfields Hin Hlook).
Defined.

(** X24: where the pages from the first URL on link up to a last page
    without next link, and are no more than the recursion goes deep,
    [fetch_documents] gives the conversion of the records of all pages in
    page order - the documents, or the exception of the first record that
    fails. *)
Theorem fetch_documents_all_pages date_parse parse server depth pages :
  page_chain server "/api/documents/?document_type__name__iexact=receipt"
             pages →
  (length pages ≤ depth)%nat →
  fetch_documents date_parse parse server depth
  = documents_from_dicts date_parse parse (pages_results pages).
Proof. intros Hchain Hdepth. by apply inner_fetch_chain. Qed.

Lemma sample_page_chain :
  page_chain sample_server
    "/api/documents/?document_type__name__iexact=receipt" sample_pages.
Proof.
  apply chain_next; [reflexivity|reflexivity|].
  apply chain_last; reflexivity.
Defined.

Lemma fetch_documents_all_pages_witness :
  page_chain sample_server
    "/api/documents/?document_type__name__iexact=receipt" sample_pages
  ∧ (length sample_pages ≤ 2)%nat
  ∧ fetch_documents plain_date_fromisoformat plain_Decimal_of_string
      sample_server 2
    = documents_from_dicts plain_date_fromisoformat plain_Decimal_of_string
        (pages_results sample_pages).
Proof.
  assert (length sample_pages ≤ 2)%nat as Hlen by (simpl; lia).
  split; [exact sample_page_chain|]. split; [exact Hlen|].
  exact (fetch_documents_all_pages plain_date_fromisoformat
           plain_Decimal_of_string sample_server 2 sample_pages
           sample_page_chain Hlen).
Defined.

(** X25: what [fetch_documents] returns is never part of the receipts: the
    pages it went through link up from the first URL to a page without next
    link, every one answered 200 with a response, and the documents are the
    conversions of all their records, one per record and in order. *)
Theorem fetch_documents_complete date_parse parse server depth result :
  fetch_documents date_parse parse server depth = Ok result →
  ∃ pages,
    page_chain server "/api/documents/?document_type__name__iexact=receipt"
               pages
    ∧ (length pages ≤ depth)%nat
    ∧ documents_from_dicts date_parse parse (pages_results pages) = Ok result
    ∧ ∀ documents, result = Some documents →
        Forall2 (λ document data,
                   Document_from_dict date_parse parse data
                   = Ok (Some document))
                documents (pages_results pages).
Proof.
  intros H. apply inner_fetch_Ok in H as (pages & Hchain & Hlen & Hdocs).
  exists pages. split; [done|]. split; [done|]. split; [done|].
  intros documents ->.
  revert documents Hdocs. generalize (pages_results pages) as results.
  induction results as [|data results IH]; intros documents; simpl.
  - intros [= <-]. constructor.
  - destruct (Document_from_dict date_parse parse data) as [document|] eqn:Hd;
      [|done].
    destruct (documents_from_dicts date_parse parse results) as [rest|];
      [|done].
    destruct document as [document|], rest as [rest|]; try done.
    intros [= <-]. constructor; [done|]. by apply IH.
Qed.

Lemma fetch_documents_complete_witness :
  ∃ documents,
    fetch_documents plain_date_fromisoformat plain_Decimal_of_string
      sample_server 5 = Ok (Some documents)
    ∧ Document.id <$> documents = [18; 19; 20]
    ∧ ∃ pages,
        page_chain sample_server
          "/api/documents/?document_type__name__iexact=receipt" pages
        ∧ (length pages ≤ 5)%nat
        ∧ documents_from_dicts plain_date_fromisoformat
            plain_Decimal_of_string (pages_results pages)
          = Ok (Some documents)
        ∧ ∀ documents', Some documents = Some documents' →
            Forall2 (λ document data,
                       Document_from_dict plain_date_fromisoformat
                         plain_Decimal_of_string data = Ok (Some document))
                    documents' (pages_results pages).
Proof.
  destruct (fetch_documents plain_date_fromisoformat plain_Decimal_of_string
              sample_server 5) as [[documents|]|] eqn:H;
    [|by vm_compute in H..].
  exists documents. split; [reflexivity|].
  split; [|exact (fetch_documents_complete _ _ _ _ _ H)].
  vm_compute in H. by injection H as <-.
Defined.

(** X26: a chain of pages longer than the recursion goes deep makes
    [fetch_documents] raise, even if every page and record is in order;
    and so it does where the pages do not link up to a last page at all: an
    answer that is not 200 or not a response, on whatever page, or next
    links that never end. *)
Theorem fetch_documents_raises date_parse parse server depth :
  ((∃ pages,
      page_chain server "/api/documents/?document_type__name__iexact=receipt"
                 pages ∧ (depth < length pages)%nat)
   → ∃ e, fetch_documents date_parse parse server depth = Raise e)
  ∧ ((∀ pages,
        ¬ page_chain server
            "/api/documents/?document_type__name__iexact=receipt" pages)
     → ∃ e, fetch_documents date_parse parse server depth = Raise e).
Proof.
  split.
  - intros (pages & Hchain & Hdepth). by eapply inner_fetch_too_deep.
  - intros Hnone.
    destruct (fetch_documents date_parse parse server depth) as [documents|]
      eqn:H; [|by eexists].
    apply inner_fetch_Ok in H as (pages & Hchain & _). by destruct (Hnone pages).
Qed.
